(** * gopengl: a shallow embedding of the cube demo ([main], [newProgram],
    [compileShader], [newTexture] and the [vertices] table) with the
    OpenGL/GLFW driver modelled as an oracle and a call trace. *)

From Stdlib Require Import ZArith QArith Qabs String Ascii List Bool Lia Lqa.
Import ListNotations.
Open Scope Z_scope.

(** ** Constants of the go-gl and glfw bindings *)

Definition GL_FALSE : Z := 0.
Definition GL_TRUE : Z := 1.
Definition GL_NO_ERROR : Z := 0.
Definition GL_INVALID_VALUE : Z := 1281.
Definition GL_VERTEX_SHADER : Z := 35633.
Definition GL_FRAGMENT_SHADER : Z := 35632.
Definition GL_COMPILE_STATUS : Z := 35713.
Definition GL_LINK_STATUS : Z := 35714.
Definition GL_INFO_LOG_LENGTH : Z := 35716.
Definition GL_ARRAY_BUFFER : Z := 34962.
Definition GL_STATIC_DRAW : Z := 35044.
Definition GL_FLOAT : Z := 5126.
Definition GL_TEXTURE0 : Z := 33984.
Definition GL_TEXTURE_2D : Z := 3553.
Definition GL_TEXTURE_MIN_FILTER : Z := 10241.
Definition GL_TEXTURE_MAG_FILTER : Z := 10240.
Definition GL_LINEAR : Z := 9729.
Definition GL_RGBA : Z := 6408.
Definition GL_UNSIGNED_BYTE : Z := 5121.
Definition GL_DEPTH_TEST : Z := 2929.
Definition GL_COLOR_BUFFER_BIT : Z := 16384.
Definition GL_DEPTH_BUFFER_BIT : Z := 256.
Definition GL_TRIANGLES : Z := 4.

Definition GLFW_ContextVersionMajor : Z := 139266.
Definition GLFW_ContextVersionMinor : Z := 139267.
Definition GLFW_OpenGLProfile : Z := 139272.
Definition GLFW_OpenGLCoreProfile : Z := 204801.
Definition GLFW_OpenGLForwardCompatible : Z := 139270.
Definition GLFW_True : Z := 1.

(** ** Machine integers *)

(** Go's [int32] arithmetic: two's complement wrap-around on 32 bits. *)
Definition wrap32 (z : Z) : Z := ((z + 2 ^ 31) mod 2 ^ 32) - 2 ^ 31.

(** Go's [int] arithmetic on a 64-bit target. *)
Definition wrap64 (z : Z) : Z := ((z + 2 ^ 63) mod 2 ^ 64) - 2 ^ 63.

(** The conversion [uint32(x)] of an [int32] value. *)
Definition uint32_of_int32 (z : Z) : Z := z mod 2 ^ 32.

(** ** Strings *)

Definition NUL : ascii := Ascii.zero.
Definition nul_str : string := String NUL EmptyString.

Fixpoint repeat_str (c : ascii) (n : nat) : string :=
  match n with
  | O => EmptyString
  | S n' => String c (repeat_str c n')
  end.

(** The C string a GL call reads through a [*uint8]: up to the first NUL. *)
Fixpoint c_string (s : string) : string :=
  match s with
  | EmptyString => EmptyString
  | String c s' => if Ascii.eqb c NUL then EmptyString else String c (c_string s')
  end.

Fixpoint ends_with_nul (s : string) : bool :=
  match s with
  | EmptyString => false
  | String c EmptyString => Ascii.eqb c NUL
  | String _ s' => ends_with_nul s'
  end.

(** [contains s sub]: [sub] occurs in [s] (as [strings.Contains]). *)
Fixpoint contains (s sub : string) : bool :=
  String.prefix sub s ||
  match s with
  | EmptyString => false
  | String _ s' => contains s' sub
  end.

(** ** Go values *)

(** Error values. [ErrorString] is what [fmt.Errorf] allocates; the others
    are the errors of the libraries the program calls. *)
Inductive GoError : Type :=
| ErrorString (msg : string)
| PathError (op path : string)
| DecodeError (msg : string)
| GlfwError (msg : string)
| GlInitError (msg : string).

(** The argument of a Go panic: [panic(err)] or a run-time error. *)
Inductive GoPanic : Type :=
| PanicError (e : GoError)
| RuntimePanic (msg : string).

(** 4x4 matrices as the mgl32 constructor applications that produce them. *)
Inductive Mat4 : Type :=
| LookAt (eye center up : Q * Q * Q)
(** [Perspective(DegToRad(deg), aspect, near, far)] *)
| Perspective (fovy_deg aspect near far : Q)
| HomogRotate3DZ (angle : Q).

(** [image.Rectangle] and the images the decoder may return. *)
Record Point := { px : Z; py : Z }.
Record Rect := { rmin : Point; rmax : Point }.

Definition Dx (r : Rect) : Z := wrap64 (px (rmax r) - px (rmin r)).
Definition Dy (r : Rect) : Z := wrap64 (py (rmax r) - py (rmin r)).

(** [image.RGBA]: a pixel buffer, its row stride in bytes and its bounds. *)
Record RGBA := { Pix : list Z; Stride : Z; RRect : Rect }.

(** A decoded image, as the [image.Image] interface value [image.Decode]
    returns: an [*image.RGBA], or any other image type with its bounds and
    its [At] method. The colours of [At] are given as [draw.Draw] reads them:
    [At(x, y).RGBA()] shifted right by 8, i.e. alpha-premultiplied 8-bit RGBA
    quadruples. *)
Inductive GoImage : Type :=
| ImgRGBA (m : RGBA)
| ImgOther (bounds : Rect) (at_ : Z -> Z -> Z * Z * Z * Z).

Definition Bounds (m : GoImage) : Rect :=
  match m with ImgRGBA r => RRect r | ImgOther b _ => b end.

(** ** The calls the program makes, as recorded in the trace *)

Inductive Call : Type :=
| CGlfwInit | CGlfwTerminate | CWindowHint (hint value : Z)
| CCreateWindow (w h : Z) (title : string) | CMakeContextCurrent | CGlInit
| CReadFile (f : string) | COsOpen (f : string) | CImageDecode (f : string)
| CCreateShader (ty : Z) | CShaderSource (sh : Z) (src : string)
| CCompileShader (sh : Z) | CGetShaderiv (sh pname : Z)
| CGetShaderInfoLog (sh bufSize : Z)
| CCreateProgram | CAttachShader (p sh : Z) | CLinkProgram (p : Z)
| CGetProgramiv (p pname : Z) | CGetProgramInfoLog (p bufSize : Z)
| CDeleteShader (sh : Z) | CUseProgram (p : Z)
| CGenVertexArrays | CBindVertexArray (vao : Z) | CGenBuffers
| CBindBuffer (target b : Z) | CBufferData (target size : Z) (data : list Q) (usage : Z)
| CGetAttribLocation (p : Z) (name : string)
| CVertexAttribPointer (index size ty : Z) (normalized : bool) (stride offset : Z)
| CEnableVertexAttribArray (index : Z)
| CGenTextures | CActiveTexture (unit : Z) | CBindTexture (target tex : Z)
| CTexParameteri (target pname param : Z)
| CTexImage2D (target level ifmt w h border fmt ty : Z) (pix : list Z)
| CGetUniformLocation (p : Z) (name : string)
| CUniformMatrix4fv (loc count : Z) (transpose : bool) (m : Mat4)
| CGetTime | CEnable (cap : Z) | CClearColor (r g b a : Q)
| CShouldClose | CClear (mask : Z) | CDrawArrays (mode first count : Z)
| CSwapBuffers | CPollEvents.

(** ** The environment: what the driver, the file system, the image decoder
    and the window system answer. *)

Record Env := {
  env_glfw_init : bool;
  env_create_window : bool;
  env_gl_init : bool;
  env_fs : string -> option string;
  (** compile status and info log for a shader type and source *)
  env_compile : Z -> string -> bool * string;
  (** link status and info log for the attached (type, source) pairs *)
  env_link : list (Z * string) -> bool * string;
  env_attrib_loc : string -> Z;
  env_uniform_loc : string -> Z;
  env_max_attribs : Z;
  (** [image.Decode] on a file's contents: image (nil = None), format
      name and error *)
  env_decode : string -> option GoImage * string * option GoError;
  (** the value of the n-th [glfw.GetTime] call, in seconds *)
  env_time : nat -> Q;
  (** the answer of the n-th [window.ShouldClose] call *)
  env_should_close : nat -> bool
}.

(** ** Driver state *)

Inductive GLObj : Type :=
| ShaderObj (ty : Z) (src : string) (compiled : option (bool * string)) (deleted : bool)
| ProgramObj (attached : list Z) (linked : option (bool * string))
| OtherObj.

Record AttribCfg := { at_size : Z; at_type : Z; at_norm : bool; at_stride : Z;
                      at_offset : Z; at_enabled : bool }.

Record St := {
  st_trace : list Call;
  st_next : Z;
  st_objs : Z -> option GLObj;
  st_attribs : Z -> option AttribCfg;
  st_error : Z;
  st_ntime : nat;
  st_nclose : nat
}.

Definition init_state : St :=
  {| st_trace := []; st_next := 1; st_objs := fun _ => None; st_attribs := fun _ => None;
     st_error := GL_NO_ERROR; st_ntime := 0; st_nclose := 0 |}.

Definition set_trace (s : St) (t : list Call) : St :=
  {| st_trace := t; st_next := st_next s; st_objs := st_objs s;
     st_attribs := st_attribs s; st_error := st_error s;
     st_ntime := st_ntime s; st_nclose := st_nclose s |}.

Definition set_objs (s : St) (n : Z) (o : Z -> option GLObj) : St :=
  {| st_trace := st_trace s; st_next := n; st_objs := o;
     st_attribs := st_attribs s; st_error := st_error s;
     st_ntime := st_ntime s; st_nclose := st_nclose s |}.

Definition set_attribs (s : St) (a : Z -> option AttribCfg) (e : Z) : St :=
  {| st_trace := st_trace s; st_next := st_next s; st_objs := st_objs s;
     st_attribs := a; st_error := e;
     st_ntime := st_ntime s; st_nclose := st_nclose s |}.

Definition set_counters (s : St) (nt nc : nat) : St :=
  {| st_trace := st_trace s; st_next := st_next s; st_objs := st_objs s;
     st_attribs := st_attribs s; st_error := st_error s;
     st_ntime := nt; st_nclose := nc |}.

(** ** The state/panic monad *)

Inductive Res (A : Type) : Type :=
| Done (a : A) (s : St)
| Panicked (p : GoPanic) (s : St)
| OutOfFuel (s : St).
Arguments Done {A}. Arguments Panicked {A}. Arguments OutOfFuel {A}.

Definition res_state {A} (r : Res A) : St :=
  match r with Done _ s | Panicked _ s | OutOfFuel s => s end.

Definition M (A : Type) : Type := St -> Res A.

Definition ret {A} (a : A) : M A := fun s => Done a s.

Definition bind {A B} (m : M A) (k : A -> M B) : M B :=
  fun s => match m s with
           | Done a s' => k a s'
           | Panicked p s' => Panicked p s'
           | OutOfFuel s' => OutOfFuel s'
           end.

Notation "x <- m ;; k" := (bind m (fun x => k))
  (at level 61, m at next level, right associativity).
Notation "' p <- m ;; k" := (bind m (fun x => match x with p => k end))
  (at level 61, p pattern, m at next level, right associativity).
Notation "m ;;; k" := (bind m (fun _ => k)) (at level 61, right associativity).

Definition go_panic {A} (p : GoPanic) : M A := fun s => Panicked p s.

(** [defer d] around [body]: [d] runs when [body] returns or panics. *)
Definition with_defer {A} (body : M A) (d : M unit) : M A :=
  fun s => match body s with
           | Done a s' => bind d (fun _ => ret a) s'
           | Panicked p s' => bind d (fun _ => go_panic p) s'
           | OutOfFuel s' => OutOfFuel s'
           end.

(** Record a call in the trace. *)
Definition emit (c : Call) : M unit :=
  fun s => Done tt (set_trace s (st_trace s ++ [c])).

Definition gets {A} (f : St -> A) : M A := fun s => Done (f s) s.
Definition modify (f : St -> St) : M unit := fun s => Done tt (f s).

(** ** The GL object store *)

Definition lookup_obj (s : St) (n : Z) : option GLObj := st_objs s n.

Definition update_obj (n : Z) (f : GLObj -> GLObj) (objs : Z -> option GLObj)
  : Z -> option GLObj :=
  fun k => if Z.eqb k n then option_map f (objs k) else objs k.

Definition modify_obj (n : Z) (f : GLObj -> GLObj) : M unit :=
  modify (fun s => set_objs s (st_next s) (update_obj n f (st_objs s))).

(** A new object name, taken from the shared shader/program name space. *)
Definition alloc_obj (o : GLObj) : M Z :=
  n <- gets st_next ;;
  modify (fun s => set_objs s (n + 1)
                    (fun k => if Z.eqb k n then Some o else st_objs s k)) ;;;
  ret n.

(** [INFO_LOG_LENGTH]: 0 when there is no log, else its length with the
    terminating NUL. *)
Definition info_log_length (log : string) : Z :=
  if Nat.eqb (String.length log) 0 then 0 else Z.of_nat (String.length log) + 1.

(** [glGet*InfoLog(obj, bufSize, nil, buf)]: the driver writes at most
    [bufSize - 1] characters of the log and a NUL into [buf]. *)
Definition write_info_log (bufSize : Z) (log buf : string) : string :=
  if bufSize <=? 0 then buf
  else
    let w := (substring 0 (Nat.min (Z.to_nat bufSize - 1) (String.length log)) log
              ++ nul_str)%string in
    (w ++ substring (String.length w) (String.length buf - String.length w) buf)%string.

(** ** The vertex table: position (3), colour (3), texture coordinate (2) *)

Definition vertices : list Q := [
  -0.5; -0.5; -0.5; 1.0; 1.0; 1.0; 0.0; 0.0;
  0.5; -0.5; -0.5; 1.0; 1.0; 1.0; 1.0; 0.0;
  0.5; 0.5; -0.5; 1.0; 1.0; 1.0; 1.0; 1.0;
  0.5; 0.5; -0.5; 1.0; 1.0; 1.0; 1.0; 1.0;
  -0.5; 0.5; -0.5; 1.0; 1.0; 1.0; 0.0; 1.0;
  -0.5; -0.5; -0.5; 1.0; 1.0; 1.0; 0.0; 0.0;

  -0.5; -0.5; 0.5; 1.0; 1.0; 1.0; 0.0; 0.0;
  0.5; -0.5; 0.5; 1.0; 1.0; 1.0; 1.0; 0.0;
  0.5; 0.5; 0.5; 1.0; 1.0; 1.0; 1.0; 1.0;
  0.5; 0.5; 0.5; 1.0; 1.0; 1.0; 1.0; 1.0;
  -0.5; 0.5; 0.5; 1.0; 1.0; 1.0; 0.0; 1.0;
  -0.5; -0.5; 0.5; 1.0; 1.0; 1.0; 0.0; 0.0;

  -0.5; 0.5; 0.5; 1.0; 1.0; 1.0; 1.0; 0.0;
  -0.5; 0.5; -0.5; 1.0; 1.0; 1.0; 1.0; 1.0;
  -0.5; -0.5; -0.5; 1.0; 1.0; 1.0; 0.0; 1.0;
  -0.5; -0.5; -0.5; 1.0; 1.0; 1.0; 0.0; 1.0;
  -0.5; -0.5; 0.5; 1.0; 1.0; 1.0; 0.0; 0.0;
  -0.5; 0.5; 0.5; 1.0; 1.0; 1.0; 1.0; 0.0;

  0.5; 0.5; 0.5; 1.0; 1.0; 1.0; 1.0; 0.0;
  0.5; 0.5; -0.5; 1.0; 1.0; 1.0; 1.0; 1.0;
  0.5; -0.5; -0.5; 1.0; 1.0; 1.0; 0.0; 1.0;
  0.5; -0.5; -0.5; 1.0; 1.0; 1.0; 0.0; 1.0;
  0.5; -0.5; 0.5; 1.0; 1.0; 1.0; 0.0; 0.0;
  0.5; 0.5; 0.5; 1.0; 1.0; 1.0; 1.0; 0.0;

  -0.5; -0.5; -0.5; 1.0; 1.0; 1.0; 0.0; 1.0;
  0.5; -0.5; -0.5; 1.0; 1.0; 1.0; 1.0; 1.0;
  0.5; -0.5; 0.5; 1.0; 1.0; 1.0; 1.0; 0.0;
  0.5; -0.5; 0.5; 1.0; 1.0; 1.0; 1.0; 0.0;
  -0.5; -0.5; 0.5; 1.0; 1.0; 1.0; 0.0; 0.0;
  -0.5; -0.5; -0.5; 1.0; 1.0; 1.0; 0.0; 1.0;

  -0.5; 0.5; -0.5; 1.0; 1.0; 1.0; 0.0; 1.0;
  0.5; 0.5; -0.5; 1.0; 1.0; 1.0; 1.0; 1.0;
  0.5; 0.5; 0.5; 1.0; 1.0; 1.0; 1.0; 0.0;
  0.5; 0.5; 0.5; 1.0; 1.0; 1.0; 1.0; 0.0;
  -0.5; 0.5; 0.5; 1.0; 1.0; 1.0; 0.0; 0.0;
  -0.5; 0.5; -0.5; 1.0; 1.0; 1.0; 0.0; 1.0;

  -1.0; -1.0; -0.5; 0.0; 0.0; 0.0; 0.0; 0.0;
  1.0; -1.0; -0.5; 0.0; 0.0; 0.0; 1.0; 0.0;
  1.0; 1.0; -0.5; 0.0; 0.0; 0.0; 1.0; 1.0;
  1.0; 1.0; -0.5; 0.0; 0.0; 0.0; 1.0; 1.0;
  -1.0; 1.0; -0.5; 0.0; 0.0; 0.0; 0.0; 1.0;
  -1.0; -1.0; -0.5; 0.0; 0.0; 0.0; 0.0; 0.0
]%Q.


Section Program.

Variable env : Env.
(** Rounding of an exact rational result to a float64 (the result of a
    float64 subtraction is [round64] of the exact difference) and to a
    float32 (the conversion [float32(x)]). *)
Variable round64 : Q -> Q.
Variable round32 : Q -> Q.

(** *** Library calls *)

Definition glfw_init : M (option GoError) :=
  emit CGlfwInit ;;;
  ret (if env_glfw_init env then None else Some (GlfwError "glfw init failed")).

Definition glfw_terminate : M unit := emit CGlfwTerminate.

Definition glfw_window_hint (h v : Z) : M unit := emit (CWindowHint h v).

Definition glfw_create_window (w h : Z) (title : string) : M (option GoError) :=
  emit (CCreateWindow w h title) ;;;
  ret (if env_create_window env then None else Some (GlfwError "window creation failed")).

Definition make_context_current : M unit := emit CMakeContextCurrent.

Definition gl_init : M (option GoError) :=
  emit CGlInit ;;;
  ret (if env_gl_init env then None else Some (GlInitError "gl init failed")).

(** [ioutil.ReadFile] *)
Definition read_file (f : string) : M (string * option GoError) :=
  emit (CReadFile f) ;;;
  ret (match env_fs env f with
       | Some c => (c, None)
       | None => (EmptyString, Some (PathError "open" f))
       end).

(** [strings.Repeat]: panics on a negative count. *)
Definition strings_repeat (c : ascii) (n : Z) : M string :=
  if n <? 0 then go_panic (RuntimePanic "strings: negative Repeat count")
  else ret (repeat_str c (Z.to_nat n)).

(** [gl.Str]: panics unless the Go string is NUL-terminated. *)
Definition gl_str (s : string) : M unit :=
  if ends_with_nul s then ret tt
  else go_panic (RuntimePanic ("str argument missing null terminator: " ++ s)%string).

Definition gl_create_shader (ty : Z) : M Z :=
  emit (CCreateShader ty) ;;; alloc_obj (ShaderObj ty EmptyString None false).

Definition gl_shader_source (sh : Z) (src : string) : M unit :=
  emit (CShaderSource sh src) ;;;
  modify_obj sh (fun o => match o with
                          | ShaderObj ty _ c d => ShaderObj ty src c d
                          | o => o
                          end).

Definition gl_compile_shader (sh : Z) : M unit :=
  emit (CCompileShader sh) ;;;
  modify_obj sh (fun o => match o with
                          | ShaderObj ty src _ d => ShaderObj ty src (Some (env_compile env ty src)) d
                          | o => o
                          end).

Definition gl_get_shaderiv (sh pname : Z) : M Z :=
  emit (CGetShaderiv sh pname) ;;;
  o <- gets (fun s => lookup_obj s sh) ;;
  ret (match o with
       | Some (ShaderObj _ _ (Some (ok, log)) _) =>
           if pname =? GL_COMPILE_STATUS then (if ok then GL_TRUE else GL_FALSE)
           else if pname =? GL_INFO_LOG_LENGTH then info_log_length log
           else 0
       | _ => 0
       end).

(** The buffer [buf] is written through the pointer [gl.Str(buf)]: the
    result is the new contents of the Go string. *)
Definition gl_get_shader_info_log (sh bufSize : Z) (buf : string) : M string :=
  emit (CGetShaderInfoLog sh bufSize) ;;;
  o <- gets (fun s => lookup_obj s sh) ;;
  ret (match o with
       | Some (ShaderObj _ _ (Some (_, log)) _) => write_info_log bufSize log buf
       | _ => buf
       end).

Definition gl_create_program : M Z :=
  emit CCreateProgram ;;; alloc_obj (ProgramObj [] None).

Definition gl_attach_shader (p sh : Z) : M unit :=
  emit (CAttachShader p sh) ;;;
  modify_obj p (fun o => match o with
                         | ProgramObj att l => ProgramObj (att ++ [sh]) l
                         | o => o
                         end).

Definition shader_input (s : St) (sh : Z) : Z * string :=
  match lookup_obj s sh with
  | Some (ShaderObj ty src _ _) => (ty, src)
  | _ => (0, EmptyString)
  end.

Definition gl_link_program (p : Z) : M unit :=
  emit (CLinkProgram p) ;;;
  s <- gets (fun s => s) ;;
  modify_obj p (fun o => match o with
                         | ProgramObj att _ =>
                             ProgramObj att (Some (env_link env (map (shader_input s) att)))
                         | o => o
                         end).

Definition gl_get_programiv (p pname : Z) : M Z :=
  emit (CGetProgramiv p pname) ;;;
  o <- gets (fun s => lookup_obj s p) ;;
  ret (match o with
       | Some (ProgramObj _ (Some (ok, log))) =>
           if pname =? GL_LINK_STATUS then (if ok then GL_TRUE else GL_FALSE)
           else if pname =? GL_INFO_LOG_LENGTH then info_log_length log
           else 0
       | _ => 0
       end).

Definition gl_get_program_info_log (p bufSize : Z) (buf : string) : M string :=
  emit (CGetProgramInfoLog p bufSize) ;;;
  o <- gets (fun s => lookup_obj s p) ;;
  ret (match o with
       | Some (ProgramObj _ (Some (_, log))) => write_info_log bufSize log buf
       | _ => buf
       end).

(** [glDeleteShader]: the shader is flagged for deletion. *)
Definition gl_delete_shader (sh : Z) : M unit :=
  emit (CDeleteShader sh) ;;;
  modify_obj sh (fun o => match o with
                          | ShaderObj ty src c _ => ShaderObj ty src c true
                          | o => o
                          end).

(** *** compileShader and newProgram *)

Definition compileShader (sourceFile : string) (shaderType : Z) : M (Z * option GoError) :=
  '(sourceBytes, err) <- read_file sourceFile ;;
  match err with
  | Some e => ret (0, Some e)
  | None =>
    let csource := (sourceBytes ++ nul_str)%string in
    gl_str csource ;;;
    shader <- gl_create_shader shaderType ;;
    gl_shader_source shader (c_string csource) ;;;
    gl_compile_shader shader ;;;
    status <- gl_get_shaderiv shader GL_COMPILE_STATUS ;;
    if status =? GL_FALSE then
      logLength <- gl_get_shaderiv shader GL_INFO_LOG_LENGTH ;;
      log <- strings_repeat NUL (wrap32 (logLength + 1)) ;;
      gl_str log ;;;
      log <- gl_get_shader_info_log shader logLength log ;;
      ret (0, Some (ErrorString ("failed to compile " ++ sourceFile ++ ": " ++ log)%string))
    else ret (shader, None)
  end.

Definition newProgram (vertexShaderFile fragmentShaderFile : string) : M (Z * option GoError) :=
  '(vertexShader, err) <- compileShader vertexShaderFile GL_VERTEX_SHADER ;;
  match err with
  | Some e => ret (0, Some e)
  | None =>
    '(fragmentShader, err) <- compileShader fragmentShaderFile GL_FRAGMENT_SHADER ;;
    match err with
    | Some e => ret (0, Some e)
    | None =>
      program <- gl_create_program ;;
      gl_attach_shader program vertexShader ;;;
      gl_attach_shader program fragmentShader ;;;
      gl_link_program program ;;;
      status <- gl_get_programiv program GL_LINK_STATUS ;;
      if status =? GL_FALSE then
        logLength <- gl_get_programiv program GL_INFO_LOG_LENGTH ;;
        log <- strings_repeat NUL (wrap32 (logLength + 1)) ;;
        gl_str log ;;;
        log <- gl_get_program_info_log program logLength log ;;
        ret (0, Some (ErrorString ("failed to link program: " ++ log)%string))
      else
        gl_delete_shader vertexShader ;;;
        gl_delete_shader fragmentShader ;;;
        ret (program, None)
    end
  end.

(** *** newTexture *)

(** [os.Open]: the opened file is represented by its contents. *)
Definition os_open (f : string) : M (string * option GoError) :=
  emit (COsOpen f) ;;;
  ret (match env_fs env f with
       | Some c => (c, None)
       | None => (EmptyString, Some (PathError "open" f))
       end).

Definition image_decode (f : string) (imgFile : string) : M (option GoImage * string * option GoError) :=
  emit (CImageDecode f) ;;; ret (env_decode env imgFile).

(** [mul3NonNeg] of package image: [x*y*z], or -1 when an argument is
    negative or the product overflows. *)
Definition mul3NonNeg (x y z : Z) : Z :=
  if (x <? 0) || (y <? 0) || (z <? 0) then -1
  else if x * y >=? 2 ^ 64 then -1
  else if x * y * z >=? 2 ^ 64 then -1
  else if x * y * z >=? 2 ^ 63 then -1
  else x * y * z.

Definition pixelBufferLength (bytesPerPixel : Z) (r : Rect) (imageTypeName : string) : M Z :=
  let totalLength := mul3NonNeg bytesPerPixel (Dx r) (Dy r) in
  if totalLength <? 0 then
    go_panic (RuntimePanic ("image: New" ++ imageTypeName ++ " Rectangle has huge or negative dimensions")%string)
  else ret totalLength.

(** [image.NewRGBA] *)
Definition NewRGBA (r : Rect) : M RGBA :=
  n <- pixelBufferLength 4 r "RGBA" ;;
  ret {| Pix := List.repeat 0 (Z.to_nat n); Stride := wrap64 (4 * Dx r); RRect := r |}.

Definition in_rect (r : Rect) (x y : Z) : bool :=
  (px (rmin r) <=? x) && (x <? px (rmax r)) && (py (rmin r) <=? y) && (y <? py (rmax r)).

(** The [At] method of [*image.RGBA]. *)
Definition rgba_at (m : RGBA) (x y : Z) : Z * Z * Z * Z :=
  if in_rect (RRect m) x y then
    let i := Z.to_nat ((y - py (rmin (RRect m))) * Stride m + (x - px (rmin (RRect m))) * 4) in
    (nth i (Pix m) 0, nth (i + 1) (Pix m) 0, nth (i + 2) (Pix m) 0, nth (i + 3) (Pix m) 0)
  else (0, 0, 0, 0).

Definition image_at (img : GoImage) (x y : Z) : Z * Z * Z * Z :=
  match img with ImgRGBA m => rgba_at m x y | ImgOther _ at_ => at_ x y end.

Definition zseq (lo : Z) (n : Z) : list Z :=
  map (fun k => lo + Z.of_nat k) (seq 0 (Z.to_nat n)).

(** [draw.Draw(dst, dst.Bounds(), src, image.ZP, draw.Src)] on a
    contiguous [dst]: the pixel at [p] takes the source pixel at
    [p - dst.Rect.Min] where that lies in the source bounds, and keeps its
    value elsewhere. *)
Definition draw_src (dst : RGBA) (src : GoImage) : RGBA :=
  let r := RRect dst in
  let pixel x y :=
    let sx := x - px (rmin r) in
    let sy := y - py (rmin r) in
    let '(cr, cg, cb, ca) :=
      if in_rect (Bounds src) sx sy then image_at src sx sy else rgba_at dst x y in
    [cr; cg; cb; ca] in
  {| Pix := flat_map (fun y => flat_map (fun x => pixel x y) (zseq (px (rmin r)) (Dx r)))
                     (zseq (py (rmin r)) (Dy r));
     Stride := Stride dst; RRect := r |}.

Definition gl_gen_texture : M Z := emit CGenTextures ;;; alloc_obj OtherObj.
Definition gl_active_texture (u : Z) : M unit := emit (CActiveTexture u).
Definition gl_bind_texture (target t : Z) : M unit := emit (CBindTexture target t).
Definition gl_tex_parameteri (target pname param : Z) : M unit :=
  emit (CTexParameteri target pname param).
Definition gl_tex_image_2d (target level ifmt w h border fmt ty : Z) (pix : list Z) : M unit :=
  emit (CTexImage2D target level ifmt w h border fmt ty pix).

Definition nil_dereference : GoPanic :=
  RuntimePanic "runtime error: invalid memory address or nil pointer dereference".

Definition newTexture (file : string) (texNum : Z) : M (Z * option GoError) :=
  '(imgFile, err) <- os_open file ;;
  match err with
  | Some e => ret (0, Some e)
  | None =>
    '(img, _, err) <- image_decode file imgFile ;;
    match img with
    | None => go_panic nil_dereference   (* img.Bounds() on a nil image *)
    | Some img =>
      rgba <- NewRGBA (Bounds img) ;;
      if negb (Stride rgba =? wrap64 (Dx (RRect rgba) * 4)) then
        ret (0, Some (ErrorString "unsupported stride"))
      else
        let rgba := draw_src rgba img in
        texture <- gl_gen_texture ;;
        gl_active_texture texNum ;;;
        gl_bind_texture GL_TEXTURE_2D texture ;;;
        gl_tex_parameteri GL_TEXTURE_2D GL_TEXTURE_MIN_FILTER GL_LINEAR ;;;
        gl_tex_parameteri GL_TEXTURE_2D GL_TEXTURE_MAG_FILTER GL_LINEAR ;;;
        gl_tex_image_2d GL_TEXTURE_2D 0 GL_RGBA
          (wrap32 (Dx (RRect rgba))) (wrap32 (Dy (RRect rgba)))
          0 GL_RGBA GL_UNSIGNED_BYTE (Pix rgba) ;;;
        ret (texture, None)
    end
  end.

(** *** Vertex attributes and uniforms *)

Definition gl_get_attrib_location (p : Z) (name : string) : M Z :=
  emit (CGetAttribLocation p name) ;;; ret (env_attrib_loc env name).

(** GL records an error only while none is pending. *)
Definition record_error (e : Z) (pending : Z) : Z :=
  if pending =? GL_NO_ERROR then e else pending.

Definition attrib_enabled (a : option AttribCfg) : bool :=
  match a with Some a => at_enabled a | None => false end.

Definition set_attrib (attribs : Z -> option AttribCfg) (index : Z) (a : AttribCfg)
  : Z -> option AttribCfg :=
  fun i => if i =? index then Some a else attribs i.

(** A generic vertex attribute array: (0,0,0,1) as four floats, disabled. *)
Definition default_attrib : AttribCfg :=
  {| at_size := 4; at_type := GL_FLOAT; at_norm := false; at_stride := 0;
     at_offset := 0; at_enabled := false |}.

(** [glVertexAttribPointer]: [GL_INVALID_VALUE] and no other effect when
    [index >= GL_MAX_VERTEX_ATTRIBS]. *)
Definition gl_vertex_attrib_pointer (index size ty : Z) (norm : bool) (stride offset : Z) : M unit :=
  emit (CVertexAttribPointer index size ty norm stride offset) ;;;
  modify (fun s =>
    let invalid := index >=? env_max_attribs env in
    set_attribs s
      (if invalid then st_attribs s
       else set_attrib (st_attribs s) index
              {| at_size := size; at_type := ty; at_norm := norm;
                 at_stride := stride; at_offset := offset;
                 at_enabled := attrib_enabled (st_attribs s index) |})
      (if invalid then record_error GL_INVALID_VALUE (st_error s) else st_error s)).

(** [glEnableVertexAttribArray], with the same error on a bad index. *)
Definition gl_enable_vertex_attrib_array (index : Z) : M unit :=
  emit (CEnableVertexAttribArray index) ;;;
  modify (fun s =>
    let invalid := index >=? env_max_attribs env in
    let a := match st_attribs s index with Some a => a | None => default_attrib end in
    set_attribs s
      (if invalid then st_attribs s
       else set_attrib (st_attribs s) index
              {| at_size := at_size a; at_type := at_type a; at_norm := at_norm a;
                 at_stride := at_stride a; at_offset := at_offset a; at_enabled := true |})
      (if invalid then record_error GL_INVALID_VALUE (st_error s) else st_error s)).

(** One of the three attribute blocks of [main]:
    [a := uint32(gl.GetAttribLocation(program, gl.Str(name + "\x00")))],
    then [gl.VertexAttribPointer(a, size, gl.FLOAT, false, 8*4, gl.PtrOffset(offset))]
    and [gl.EnableVertexAttribArray(a)]. *)
Definition setup_attrib (program : Z) (name : string) (size offset : Z) : M unit :=
  let cname := (name ++ nul_str)%string in
  gl_str cname ;;;
  loc <- gl_get_attrib_location program (c_string cname) ;;
  let a := uint32_of_int32 loc in
  gl_vertex_attrib_pointer a size GL_FLOAT false (8 * 4) offset ;;;
  gl_enable_vertex_attrib_array a.

Definition gl_get_uniform_location (p : Z) (name : string) : M Z :=
  let cname := (name ++ nul_str)%string in
  gl_str cname ;;;
  emit (CGetUniformLocation p (c_string cname)) ;;; ret (env_uniform_loc env (c_string cname)).

Definition gl_uniform_matrix4fv (loc count : Z) (transpose : bool) (m : Mat4) : M unit :=
  emit (CUniformMatrix4fv loc count transpose m).

(** *** Buffers, frames and the window *)

Definition gl_use_program (p : Z) : M unit := emit (CUseProgram p).
Definition gl_gen_vertex_arrays : M Z := emit CGenVertexArrays ;;; alloc_obj OtherObj.
Definition gl_bind_vertex_array (v : Z) : M unit := emit (CBindVertexArray v).
Definition gl_gen_buffers : M Z := emit CGenBuffers ;;; alloc_obj OtherObj.
Definition gl_bind_buffer (target b : Z) : M unit := emit (CBindBuffer target b).
Definition gl_buffer_data (target size : Z) (data : list Q) (usage : Z) : M unit :=
  emit (CBufferData target size data usage).
Definition gl_enable (cap : Z) : M unit := emit (CEnable cap).
Definition gl_clear_color (r g b a : Q) : M unit := emit (CClearColor r g b a).
Definition gl_clear (mask : Z) : M unit := emit (CClear mask).
Definition gl_draw_arrays (mode first count : Z) : M unit := emit (CDrawArrays mode first count).
Definition window_swap_buffers : M unit := emit CSwapBuffers.
Definition glfw_poll_events : M unit := emit CPollEvents.

Definition glfw_get_time : M Q :=
  emit CGetTime ;;;
  n <- gets st_ntime ;;
  modify (fun s => set_counters s (S n) (st_nclose s)) ;;;
  ret (env_time env n).

Definition window_should_close : M bool :=
  emit CShouldClose ;;;
  n <- gets st_nclose ;;
  modify (fun s => set_counters s (st_ntime s) (S n)) ;;;
  ret (env_should_close env n).

(** *** The render loop and main *)

(** The rotation angle of a frame: [float32(glfw.GetTime() - startTime)], the
    float64 difference rounded by [round64], then converted by [round32]. *)
Definition rotation_angle (startTime t : Q) : Q := round32 (round64 (t - startTime)).

(** [for !window.ShouldClose() { ... }], run for at most [fuel] iterations. *)
Fixpoint render_loop (fuel : nat) (uniModel : Z) (startTime : Q) : M unit :=
  match fuel with
  | O => fun s => OutOfFuel s
  | S fuel' =>
    closing <- window_should_close ;;
    if closing then ret tt
    else
      gl_clear (Z.lor GL_COLOR_BUFFER_BIT GL_DEPTH_BUFFER_BIT) ;;;
      t <- glfw_get_time ;;
      let matRot := HomogRotate3DZ (rotation_angle startTime t) in
      gl_uniform_matrix4fv uniModel 1 false matRot ;;;
      gl_draw_arrays GL_TRIANGLES 0 36 ;;;
      window_swap_buffers ;;;
      glfw_poll_events ;;;
      render_loop fuel' uniModel startTime
  end.

(** The part of [main] after [defer glfw.Terminate()]. *)
Definition main_body (fuel : nat) : M unit :=
  glfw_window_hint GLFW_ContextVersionMajor 3 ;;;
  glfw_window_hint GLFW_ContextVersionMinor 3 ;;;
  glfw_window_hint GLFW_OpenGLProfile GLFW_OpenGLCoreProfile ;;;
  glfw_window_hint GLFW_OpenGLForwardCompatible GLFW_True ;;;
  err <- glfw_create_window 640 480 "GOPenGL" ;;
  match err with Some e => go_panic (PanicError e) | None =>
  make_context_current ;;;
  err <- gl_init ;;
  match err with Some e => go_panic (PanicError e) | None =>
  '(program, err) <- newProgram "vertex.glsl" "fragment.glsl" ;;
  match err with Some e => go_panic (PanicError e) | None =>
  gl_use_program program ;;;
  vao <- gl_gen_vertex_arrays ;;
  gl_bind_vertex_array vao ;;;
  vbo <- gl_gen_buffers ;;
  gl_bind_buffer GL_ARRAY_BUFFER vbo ;;;
  gl_buffer_data GL_ARRAY_BUFFER (wrap64 (Z.of_nat (length vertices) * 4)) vertices GL_STATIC_DRAW ;;;
  setup_attrib program "position" 3 0 ;;;
  setup_attrib program "color" 3 (3 * 4) ;;;
  setup_attrib program "texCoord" 2 (6 * 4) ;;;
  '(_, err) <- newTexture "kitten.png" GL_TEXTURE0 ;;
  match err with Some e => go_panic (PanicError e) | None =>
  uniModel <- gl_get_uniform_location program "model" ;;
  uniView <- gl_get_uniform_location program "view" ;;
  uniProj <- gl_get_uniform_location program "proj" ;;
  let matView := LookAt (2.0, 2.0, 2.0)%Q (0.0, 0.0, 0.0)%Q (0.0, 0.0, 1.0)%Q in
  gl_uniform_matrix4fv uniView 1 false matView ;;;
  let matProj := Perspective 45.0 (round32 (640.0 / 480.0)) 1.0 10.0 in
  gl_uniform_matrix4fv uniProj 1 false matProj ;;;
  startTime <- glfw_get_time ;;
  gl_enable GL_DEPTH_TEST ;;;
  gl_clear_color 1.0 1.0 1.0 1.0 ;;;
  render_loop fuel uniModel startTime
  end end end end.

Definition main (fuel : nat) : M unit :=
  err <- glfw_init ;;
  match err with
  | Some e => go_panic (PanicError e)
  | None => with_defer (main_body fuel) glfw_terminate
  end.

End Program.

(** * The two other programs of the repository *)

(** The earlier program of [vertex.glsl] (its second [package main]): the
    same [newProgram] and [compileShader], and a render loop that only clears
    the color buffer. *)
Module ClearScreen.
Section Program2.

Variable env : Env.

Fixpoint render_loop (fuel : nat) : M unit :=
  match fuel with
  | O => fun s => OutOfFuel s
  | S fuel' =>
    closing <- window_should_close env ;;
    if closing then ret tt
    else
      gl_clear GL_COLOR_BUFFER_BIT ;;;
      window_swap_buffers ;;;
      glfw_poll_events ;;;
      render_loop fuel'
  end.

Definition main_body (fuel : nat) : M unit :=
  glfw_window_hint GLFW_ContextVersionMajor 3 ;;;
  glfw_window_hint GLFW_ContextVersionMinor 3 ;;;
  glfw_window_hint GLFW_OpenGLProfile GLFW_OpenGLCoreProfile ;;;
  glfw_window_hint GLFW_OpenGLForwardCompatible GLFW_True ;;;
  err <- glfw_create_window env 640 480 "GOPenGL" ;;
  match err with Some e => go_panic (PanicError e) | None =>
  make_context_current ;;;
  err <- gl_init env ;;
  match err with Some e => go_panic (PanicError e) | None =>
  '(program, err) <- newProgram env "vertex.glsl" "fragment.glsl" ;;
  match err with Some e => go_panic (PanicError e) | None =>
  gl_use_program program ;;;
  render_loop fuel
  end end end.

Definition main (fuel : nat) : M unit :=
  err <- glfw_init env ;;
  match err with
  | Some e => go_panic (PanicError e)
  | None => with_defer (main_body fuel) glfw_terminate
  end.

End Program2.
End ClearScreen.

(** [src/main.go]: a window and an empty event loop. *)
Module MainGo.
Section Program3.

Variable env : Env.

Fixpoint render_loop (fuel : nat) : M unit :=
  match fuel with
  | O => fun s => OutOfFuel s
  | S fuel' =>
    closing <- window_should_close env ;;
    if closing then ret tt
    else
      window_swap_buffers ;;;
      glfw_poll_events ;;;
      render_loop fuel'
  end.

Definition main_body (fuel : nat) : M unit :=
  glfw_window_hint GLFW_ContextVersionMajor 3 ;;;
  glfw_window_hint GLFW_ContextVersionMinor 3 ;;;
  glfw_window_hint GLFW_OpenGLProfile GLFW_OpenGLCoreProfile ;;;
  glfw_window_hint GLFW_OpenGLForwardCompatible GLFW_True ;;;
  err <- glfw_create_window env 640 480 "GOPenGL" ;;
  match err with Some e => go_panic (PanicError e) | None =>
  make_context_current ;;;
  err <- gl_init env ;;
  match err with Some e => go_panic (PanicError e) | None =>
  render_loop fuel
  end end.

Definition main (fuel : nat) : M unit :=
  err <- glfw_init env ;;
  match err with
  | Some e => go_panic (PanicError e)
  | None => with_defer (main_body fuel) glfw_terminate
  end.

End Program3.
End MainGo.

(** * Observations of a run, used to state its properties *)

(** The info-log buffer of [compileShader] and [newProgram] after the
    driver wrote into it: the log and two NULs, or one NUL without a log. *)
Definition info_log_text (log : string) : string :=
  if Nat.eqb (String.length log) 0 then nul_str else (log ++ nul_str ++ nul_str)%string.

(** The calls [compileShader] makes once the source file has been read. *)
Definition compile_calls (f : string) (ty n : Z) (src : string) (ok : bool) (logLength : Z)
  : list Call :=
  [CReadFile f; CCreateShader ty; CShaderSource n src; CCompileShader n;
   CGetShaderiv n GL_COMPILE_STATUS] ++
  (if ok then [] else [CGetShaderiv n GL_INFO_LOG_LENGTH; CGetShaderInfoLog n logLength]).

(** The calls [newProgram] makes after compiling both shaders. *)
Definition link_calls (n : Z) (ok : bool) (logLength : Z) : list Call :=
  [CCreateProgram; CAttachShader (n + 2) n; CAttachShader (n + 2) (n + 1);
   CLinkProgram (n + 2); CGetProgramiv (n + 2) GL_LINK_STATUS] ++
  (if ok then [CDeleteShader n; CDeleteShader (n + 1)]
   else [CGetProgramiv (n + 2) GL_INFO_LOG_LENGTH; CGetProgramInfoLog (n + 2) logLength]).

(** One iteration of the render loop, as calls: the [ShouldClose] test that
    lets it run, then the body of the loop. *)
Definition frame_calls (uniModel : Z) (angle : Q) : list Call :=
  [CShouldClose; CClear (Z.lor GL_COLOR_BUFFER_BIT GL_DEPTH_BUFFER_BIT); CGetTime;
   CUniformMatrix4fv uniModel 1 false (HomogRotate3DZ angle);
   CDrawArrays GL_TRIANGLES 0 36; CSwapBuffers; CPollEvents].

(** The draw calls, uniform writes and buffer uploads of a trace. *)
Definition draw_of (c : Call) : list (Z * Z * Z) :=
  match c with CDrawArrays m f n => [(m, f, n)] | _ => [] end.
Definition draws (tr : list Call) : list (Z * Z * Z) := flat_map draw_of tr.

Definition uniform_of (c : Call) : list (Z * Mat4) :=
  match c with CUniformMatrix4fv loc _ _ m => [(loc, m)] | _ => [] end.
Definition uniform_writes (tr : list Call) : list (Z * Mat4) := flat_map uniform_of tr.

Definition upload_of (c : Call) : list (Z * Z * list Q * Z) :=
  match c with CBufferData t n d u => [(t, n, d, u)] | _ => [] end.
Definition uploads (tr : list Call) : list (Z * Z * list Q * Z) := flat_map upload_of tr.

(** Calls that neither write a uniform, draw, test [ShouldClose] nor upload
    a buffer. *)
Definition quiet_call (c : Call) : bool :=
  match c with
  | CUniformMatrix4fv _ _ _ _ | CDrawArrays _ _ _ | CShouldClose | CBufferData _ _ _ _ => false
  | _ => true
  end.
Definition quiet (tr : list Call) : bool := forallb quiet_call tr.

(** [m] only appends quiet calls to the trace, whatever the state. *)
Definition quietM {A} (m : M A) : Prop :=
  forall s, exists ext, st_trace (res_state (m s)) = st_trace s ++ ext /\ quiet ext = true.

(** [m] appends to the trace a sequence of calls in the language [L]. *)
Definition traceM {A} (L : list Call -> Prop) (m : M A) : Prop :=
  forall s, exists ext, st_trace (res_state (m s)) = st_trace s ++ ext /\ L ext.

Definition quietL (e : list Call) : Prop := quiet e = true.

(** [L1] followed, unless the run stopped, by [L2]. *)
Definition seqL (L1 L2 : list Call -> Prop) (e : list Call) : Prop :=
  exists e1 e2, e = (e1 ++ e2)%list /\ L1 e1 /\ (e2 = [] \/ L2 e2).

Definition consL (c : Call) (L : list Call -> Prop) (e : list Call) : Prop :=
  exists e', e = c :: e' /\ L e'.

(** Whole frames, possibly ended by the [ShouldClose] test that stops the loop. *)
Definition loopL (uniModel : Z) (e : list Call) : Prop :=
  exists angles tail, e = (flat_map (frame_calls uniModel) angles ++ tail)%list /\
                      (tail = [] \/ tail = [CShouldClose]).

Definition upload_call : Call :=
  CBufferData GL_ARRAY_BUFFER (wrap64 (Z.of_nat (length vertices) * 4)) vertices GL_STATIC_DRAW.
Definition view_matrix : Mat4 := LookAt (2.0, 2.0, 2.0)%Q (0.0, 0.0, 0.0)%Q (0.0, 0.0, 1.0)%Q.
Definition proj_matrix (round32 : Q -> Q) : Mat4 :=
  (Perspective 45.0 (round32 (640.0 / 480.0)) 1.0 10.0)%Q.
Definition view_call env := CUniformMatrix4fv (env_uniform_loc env "view") 1 false view_matrix.
Definition proj_call env r32 :=
  CUniformMatrix4fv (env_uniform_loc env "proj") 1 false (proj_matrix r32).

(** The shape of every trace of [main]. *)
Definition main_lang (env : Env) (round32 : Q -> Q) : list Call -> Prop :=
  seqL quietL
    (seqL (seqL quietL (consL upload_call
       (seqL quietL (consL (view_call env) (consL (proj_call env round32)
       (seqL quietL (loopL (env_uniform_loc env "model"))))))))
     quietL).

(** The [i]-th vertex record of [vertices]: 8 floats. *)
Definition vertex_record (i : nat) : list Q := firstn 8 (skipn (8 * i) vertices).

(** A cube corner: every coordinate is +-0.5. *)
Definition cube_vertex (r : list Q) : bool :=
  forallb (fun q => Qeq_bool (Qabs q) (1 # 2)) (firstn 3 r).

(** A corner of the ground quad: x, y = +-1 and z = -0.5. *)
Definition ground_vertex (r : list Q) : bool :=
  match r with
  | x :: y :: z :: _ => Qeq_bool (Qabs x) 1 && Qeq_bool (Qabs y) 1 && Qeq_bool z (- (1 # 2))
  | _ => false
  end.

(** The RGBA image [newTexture] allocates and fills from [img]. *)
Definition texture_pixels (img : GoImage) : RGBA :=
  let r := Bounds img in
  draw_src {| Pix := repeat 0 (Z.to_nat (mul3NonNeg 4 (Dx r) (Dy r)));
              Stride := wrap64 (4 * Dx r); RRect := r |} img.

(** The calls of a [newTexture] that uploads the decoded image [img]. *)
Definition texture_calls (file : string) (texNum tex : Z) (img : GoImage) : list Call :=
  [COsOpen file; CImageDecode file; CGenTextures; CActiveTexture texNum;
   CBindTexture GL_TEXTURE_2D tex;
   CTexParameteri GL_TEXTURE_2D GL_TEXTURE_MIN_FILTER GL_LINEAR;
   CTexParameteri GL_TEXTURE_2D GL_TEXTURE_MAG_FILTER GL_LINEAR;
   CTexImage2D GL_TEXTURE_2D 0 GL_RGBA (wrap32 (Dx (Bounds img))) (wrap32 (Dy (Bounds img)))
     0 GL_RGBA GL_UNSIGNED_BYTE (Pix (texture_pixels img))].

(** [env] with another answer to [GetAttribLocation]. *)
Definition with_attrib_loc (env : Env) (g : string -> Z) : Env :=
  {| env_glfw_init := env_glfw_init env; env_create_window := env_create_window env;
     env_gl_init := env_gl_init env; env_fs := env_fs env; env_compile := env_compile env;
     env_link := env_link env; env_attrib_loc := g; env_uniform_loc := env_uniform_loc env;
     env_max_attribs := env_max_attribs env; env_decode := env_decode env;
     env_time := env_time env; env_should_close := env_should_close env |}.

(** [rnd] rounds to a nearest element of the float format [F] (any tie rule). *)
Definition nearest (F : Q -> Prop) (rnd : Q -> Q) : Prop :=
  (forall x, F (rnd x)) /\
  (forall x f, F f -> Qabs (x - rnd x) <= Qabs (x - f))%Q /\
  (forall x y, x == y -> rnd x == rnd y)%Q.

(** ** Concrete environments *)

(** A 2x2 RGBA image whose rows are 12 bytes apart, not 2 * 4. *)
Definition strided_image : GoImage :=
  ImgRGBA {| Pix := map Z.of_nat (seq 0 24); Stride := 12;
             RRect := {| rmin := {| px := 0; py := 0 |}; rmax := {| px := 2; py := 2 |} |} |}.


(** Every file exists; every shader compiles iff [compile_ok] (with a log
    when it fails); linking succeeds iff [link_ok]; [GetAttribLocation]
    answers [attrib]; the decoder returns [img]; the clock reads [n] at the
    [n]-th call and the window closes at the [nclose]-th test. *)
Definition demo_env (compile_ok link_ok : bool) (attrib : Z) (img : GoImage) (nclose : nat)
  : Env :=
  {| env_glfw_init := true; env_create_window := true; env_gl_init := true;
     env_fs := fun f => Some ("source of " ++ f)%string;
     env_compile := fun _ _ => (compile_ok, if compile_ok then EmptyString else "syntax error"%string);
     env_link := fun _ => (link_ok, if link_ok then EmptyString else "link error"%string);
     env_attrib_loc := fun _ => attrib;
     env_uniform_loc := fun _ => 0;
     env_max_attribs := 16;
     env_decode := fun _ => (Some img, "png"%string, None);
     env_time := fun n => inject_Z (Z.of_nat n);
     env_should_close := fun n => Nat.leb nclose n |}.

(** ** Relations between the states before and after a computation *)

(** [m] relates the state it starts from to the state it stops in by [R],
    whether it returns, panics or runs out of fuel. *)
Definition relM {A} (R : St -> St -> Prop) (m : M A) : Prop :=
  forall s, R s (res_state (m s)).

(** The trace grows by calls in the language [L]. *)
Definition trace_rel (L : list Call -> Prop) (s s' : St) : Prop :=
  exists ext, st_trace s' = st_trace s ++ ext /\ L ext.

(** No draw, no uniform write and no buffer upload. *)
Definition obs_free (e : list Call) : Prop :=
  draws e = [] /\ uniform_writes e = [] /\ uploads e = [].

(** The GLFW calls and [gl.Init]. *)
Definition glfw_call (c : Call) : bool :=
  match c with
  | CGlfwInit | CGlfwTerminate | CWindowHint _ _ | CCreateWindow _ _ _ | CMakeContextCurrent
  | CGlInit | CShouldClose | CSwapBuffers | CPollEvents => true
  | _ => false
  end.

(** Only GLFW calls, and the GL objects, attributes and error flag unchanged. *)
Definition glfw_only (s s' : St) : Prop :=
  trace_rel (fun e => forallb glfw_call e = true) s s' /\
  st_next s' = st_next s /\ st_objs s' = st_objs s /\ st_attribs s' = st_attribs s /\
  st_error s' = st_error s.

Fixpoint no_nul (s : string) : bool :=
  match s with
  | EmptyString => true
  | String c s' => negb (Ascii.eqb c NUL) && no_nul s'
  end.

(** One frame of the earlier program's loop. *)
Definition clear_frame_calls : list Call :=
  [CShouldClose; CClear GL_COLOR_BUFFER_BIT; CSwapBuffers; CPollEvents].

(** Any sequence of calls. *)
Definition anyL (e : list Call) : Prop := True.

(** The run returned or panicked, instead of running out of fuel. *)
Definition finished {A} (r : Res A) : bool :=
  match r with OutOfFuel _ => false | _ => true end.

(** [env] with the files [fs] instead of its own. *)
Definition with_fs (env : Env) (fs : string -> option string) : Env :=
  {| env_glfw_init := env_glfw_init env; env_create_window := env_create_window env;
     env_gl_init := env_gl_init env; env_fs := fs; env_compile := env_compile env;
     env_link := env_link env; env_attrib_loc := env_attrib_loc env;
     env_uniform_loc := env_uniform_loc env; env_max_attribs := env_max_attribs env;
     env_decode := env_decode env; env_time := env_time env;
     env_should_close := env_should_close env |}.

(** [env] where [glfw.Init] fails. *)
Definition no_glfw_env (env : Env) : Env :=
  {| env_glfw_init := false; env_create_window := env_create_window env;
     env_gl_init := env_gl_init env; env_fs := env_fs env; env_compile := env_compile env;
     env_link := env_link env; env_attrib_loc := env_attrib_loc env;
     env_uniform_loc := env_uniform_loc env; env_max_attribs := env_max_attribs env;
     env_decode := env_decode env; env_time := env_time env;
     env_should_close := env_should_close env |}.

(** An image whose maximum x lies left of its minimum x. *)
Definition inverted_image : GoImage :=
  ImgOther {| rmin := {| px := 0; py := 0 |}; rmax := {| px := -1; py := 1 |} |}
           (fun _ _ => (0, 0, 0, 0)).

(** * Properties *)

(** ** Monad and string helpers *)

Lemma bind_done {A B} (m : M A) (k : A -> M B) s a s' :
  m s = Done a s' -> bind m k s = k a s'.
Proof. intro H. unfold bind. rewrite H. reflexivity. Qed.

Lemma ends_with_nul_app c : ends_with_nul (c ++ nul_str) = true.
Proof.
  induction c as [|a c IH]; [reflexivity|].
  simpl. destruct c; [reflexivity|exact IH].
Qed.

Lemma gl_str_nul c s : gl_str (c ++ nul_str) s = Done tt s.
Proof. unfold gl_str. rewrite ends_with_nul_app. reflexivity. Qed.

Lemma repeat_str_S_r c n : repeat_str c (S n) = (repeat_str c n ++ String c EmptyString)%string.
Proof. induction n as [|n IH]; [reflexivity|]. simpl in *. rewrite IH. reflexivity. Qed.

Lemma gl_str_repeat n s : gl_str (repeat_str NUL (S n)) s = Done tt s.
Proof. rewrite repeat_str_S_r. apply gl_str_nul. Qed.

Lemma strings_repeat_ok c n s :
  0 <= n -> strings_repeat c n s = Done (repeat_str c (Z.to_nat n)) s.
Proof.
  intro H. unfold strings_repeat.
  destruct (n <? 0) eqn:E; [apply Z.ltb_lt in E; lia | reflexivity].
Qed.

Lemma wrap32_small z : - 2 ^ 31 <= z < 2 ^ 31 -> wrap32 z = z.
Proof. intro H. unfold wrap32. rewrite Z.mod_small; lia. Qed.

Lemma string_length_app a b :
  String.length (a ++ b) = (String.length a + String.length b)%nat.
Proof. induction a as [|c a IH]; simpl; auto. Qed.

Lemma str_app_assoc a b c : ((a ++ b) ++ c)%string = (a ++ b ++ c)%string.
Proof. induction a as [|x a IH]; simpl; [reflexivity|]. rewrite IH. reflexivity. Qed.

Lemma substring_0_full s : substring 0 (String.length s) s = s.
Proof. induction s as [|c s IH]; simpl; [reflexivity|]. rewrite IH. reflexivity. Qed.

Lemma repeat_str_length c n : String.length (repeat_str c n) = n.
Proof. induction n; simpl; auto. Qed.

Lemma substring_repeat_str c k n :
  (k < n)%nat -> substring k (n - k) (repeat_str c n) = repeat_str c (n - k).
Proof.
  revert n. induction k as [|k IH]; intros n H.
  - rewrite Nat.sub_0_r. destruct n; [lia|]. simpl.
    rewrite <- (repeat_str_length c n) at 1. rewrite substring_0_full. reflexivity.
  - destruct n as [|n]; [lia|]. simpl. apply IH. lia.
Qed.


Lemma info_log_length_nonneg log : 0 <= info_log_length log.
Proof. unfold info_log_length. destruct (Nat.eqb _ 0); lia. Qed.

Lemma info_log_buffer log :
  info_log_length log + 1 < 2 ^ 31 ->
  write_info_log (info_log_length log)
    log (repeat_str NUL (Z.to_nat (wrap32 (info_log_length log + 1)))) = info_log_text log.
Proof.
  intro H. pose proof (info_log_length_nonneg log) as H0.
  rewrite wrap32_small by lia.
  unfold info_log_text, write_info_log, info_log_length in *.
  destruct (Nat.eqb (String.length log) 0) eqn:E.
  - reflexivity.
  - apply Nat.eqb_neq in E.
    set (L := String.length log) in *.
    replace (Z.of_nat L + 1 <=? 0) with false by (symmetry; apply Z.leb_gt; lia).
    replace (Z.to_nat (Z.of_nat L + 1) - 1)%nat with L by lia.
    rewrite Nat.min_id. unfold L. rewrite substring_0_full. fold L.
    rewrite string_length_app. simpl String.length.
    replace (Z.to_nat (Z.of_nat L + 1 + 1)) with (S (S L)) by lia.
    rewrite repeat_str_length. fold L.
    replace (L + 1)%nat with (S L) by lia.
    rewrite substring_repeat_str by lia.
    replace (S (S L) - S L)%nat with 1%nat by lia.
    rewrite str_app_assoc. reflexivity.
Qed.

(** ** Symbolic execution *)

Ltac cbn_gl := cbn -[gl_str strings_repeat String.append write_info_log].
Ltac run := repeat progress (cbn_gl; unfold update_obj; try rewrite gl_str_nul;
                             try rewrite Z.eqb_refl).
(** Decide the comparisons of object names that arithmetic settles. *)
Ltac zeq := repeat match goal with
  | |- context [?x =? ?y] =>
      first [ replace (x =? y) with true by (symmetry; apply Z.eqb_eq; lia)
            | replace (x =? y) with false by (symmetry; apply Z.eqb_neq; lia) ]
  end.

(** ** compileShader *)


Lemma compileShader_read_error env f ty s :
  env_fs env f = None ->
  compileShader env f ty s =
    Done (0, Some (PathError "open" f)) (set_trace s (st_trace s ++ [CReadFile f])).
Proof. intro Hf. unfold compileShader, read_file, bind, emit, ret. cbn_gl. rewrite Hf. reflexivity. Qed.

Lemma compileShader_compiled env f ty s c ok log :
  env_fs env f = Some c ->
  env_compile env ty (c_string (c ++ nul_str)) = (ok, log) ->
  info_log_length log + 1 < 2 ^ 31 ->
  exists s',
    compileShader env f ty s =
      Done (if ok then (st_next s, None)
            else (0, Some (ErrorString ("failed to compile " ++ f ++ ": " ++ info_log_text log)%string))) s' /\
    st_trace s' = st_trace s ++ compile_calls f ty (st_next s) (c_string (c ++ nul_str)) ok (info_log_length log) /\
    st_next s' = st_next s + 1 /\
    (forall k, st_objs s' k =
               if k =? st_next s then Some (ShaderObj ty (c_string (c ++ nul_str)) (Some (ok, log)) false)
               else st_objs s k) /\
    st_attribs s' = st_attribs s /\ st_error s' = st_error s /\
    st_ntime s' = st_ntime s /\ st_nclose s' = st_nclose s.
Proof.
  intros Hf Hc Hlen. pose proof (info_log_length_nonneg log) as H0.
  unfold compileShader, read_file, bind, emit, ret, gets, modify.
  cbn_gl. rewrite Hf. run. rewrite Hc. destruct ok; run.
  - eexists; split; [reflexivity|]. cbn. rewrite <- !app_assoc. repeat split; try reflexivity.
    intro k. destruct (k =? st_next s); cbn; [rewrite Hc|]; reflexivity.
  - rewrite Hc. cbn_gl.
    rewrite strings_repeat_ok by (rewrite wrap32_small; lia).
    rewrite (wrap32_small (info_log_length log + 1)) by lia.
    replace (Z.to_nat (info_log_length log + 1)) with (S (Z.to_nat (info_log_length log))) by lia.
    rewrite gl_str_repeat. run. rewrite Hc. run.
    replace (String NUL (repeat_str NUL (Z.to_nat (info_log_length log))))
      with (repeat_str NUL (Z.to_nat (wrap32 (info_log_length log + 1))))
      by (rewrite wrap32_small by lia;
          replace (Z.to_nat (info_log_length log + 1)) with (S (Z.to_nat (info_log_length log))) by lia;
          reflexivity).
    rewrite info_log_buffer by lia.
    eexists; split; [reflexivity|]. cbn. rewrite <- !app_assoc. repeat split; try reflexivity.
    intro k. destruct (k =? st_next s); cbn; [rewrite Hc|]; reflexivity.
Qed.
Lemma info_log_buffer_S log :
  info_log_length log + 1 < 2 ^ 31 ->
  write_info_log (info_log_length log) log
    (String NUL (repeat_str NUL (Z.to_nat (info_log_length log)))) = info_log_text log.
Proof.
  intro H. pose proof (info_log_length_nonneg log).
  rewrite <- info_log_buffer by exact H. rewrite wrap32_small by lia.
  replace (Z.to_nat (info_log_length log + 1)) with (S (Z.to_nat (info_log_length log))) by lia.
  reflexivity.
Qed.
Ltac obj_cases k := zeq; repeat match goal with
  | |- context [k =? ?m] => destruct (Z.eqb_spec k m); [subst k | ]; zeq
  end.

Lemma newProgram_linked env vf ff s cv cf lv lf ok llog :
  env_fs env vf = Some cv ->
  env_compile env GL_VERTEX_SHADER (c_string (cv ++ nul_str)) = (true, lv) ->
  env_fs env ff = Some cf ->
  env_compile env GL_FRAGMENT_SHADER (c_string (cf ++ nul_str)) = (true, lf) ->
  env_link env [(GL_VERTEX_SHADER, c_string (cv ++ nul_str));
                (GL_FRAGMENT_SHADER, c_string (cf ++ nul_str))] = (ok, llog) ->
  info_log_length lv + 1 < 2 ^ 31 -> info_log_length lf + 1 < 2 ^ 31 ->
  info_log_length llog + 1 < 2 ^ 31 ->
  let n := st_next s in
  exists s',
    newProgram env vf ff s =
      Done (if ok then (n + 2, None)
            else (0, Some (ErrorString ("failed to link program: " ++ info_log_text llog)%string))) s' /\
    st_trace s' = st_trace s ++ compile_calls vf GL_VERTEX_SHADER n (c_string (cv ++ nul_str)) true (info_log_length lv)
                             ++ compile_calls ff GL_FRAGMENT_SHADER (n + 1) (c_string (cf ++ nul_str)) true (info_log_length lf)
                             ++ link_calls n ok (info_log_length llog) /\
    st_next s' = n + 3 /\
    (forall k, st_objs s' k =
       if k =? n then Some (ShaderObj GL_VERTEX_SHADER (c_string (cv ++ nul_str)) (Some (true, lv)) ok)
       else if k =? n + 1 then Some (ShaderObj GL_FRAGMENT_SHADER (c_string (cf ++ nul_str)) (Some (true, lf)) ok)
       else if k =? n + 2 then Some (ProgramObj [n; n + 1] (Some (ok, llog)))
       else st_objs s k) /\
    st_attribs s' = st_attribs s /\ st_error s' = st_error s /\
    st_ntime s' = st_ntime s /\ st_nclose s' = st_nclose s.
Proof.
  intros Hv Hcv Hf Hcf Hl Hlv Hlf Hll n.
  destruct (compileShader_compiled env vf GL_VERTEX_SHADER s cv true lv Hv Hcv Hlv)
    as (s1 & E1 & T1 & N1 & O1 & A1 & R1 & Ti1 & C1).
  destruct (compileShader_compiled env ff GL_FRAGMENT_SHADER s1 cf true lf Hf Hcf Hlf)
    as (s2 & E2 & T2 & N2 & O2 & A2 & R2 & Ti2 & C2).
  unfold newProgram. rewrite (bind_done _ _ _ _ _ E1). cbv beta iota.
  rewrite (bind_done _ _ _ _ _ E2). cbv beta iota.
  unfold bind, gl_create_program, alloc_obj, emit, gets, modify, ret. cbn_gl.
  rewrite N2, N1. fold n. run. zeq. run. unfold shader_input, lookup_obj. run.
  rewrite !O2, !N1. rewrite !O1. fold n. zeq. run. rewrite Hl.
  replace (n + 1 + 1 + 1) with (n + 3) by lia. replace (n + 1 + 1) with (n + 2) by lia.
  destruct ok; run.
  - eexists; split; [reflexivity|]. cbn. rewrite T2, T1, N1. fold n. rewrite <- !app_assoc.
    repeat split; try (cbn; congruence).
    + intro k. cbn. rewrite !O2, !N1, !O1. fold n.
      obj_cases k; cbn; rewrite ?O2, ?N1, ?O1; fold n; zeq; cbn; try rewrite Hl; reflexivity.
  - zeq. run. rewrite ?O2, ?N1, ?O1. fold n. zeq. run. rewrite Hl. run.
    pose proof (info_log_length_nonneg llog).
    rewrite strings_repeat_ok by (rewrite wrap32_small; lia).
    rewrite (wrap32_small (info_log_length llog + 1)) by lia.
    replace (Z.to_nat (info_log_length llog + 1)) with (S (Z.to_nat (info_log_length llog))) by lia.
    rewrite gl_str_repeat. run. rewrite ?O2, ?N1, ?O1. fold n. zeq. run. rewrite Hl. run.
    rewrite info_log_buffer_S by exact Hll.
    eexists; split; [reflexivity|]. cbn. rewrite T2, T1, N1. fold n. rewrite <- !app_assoc.
    repeat split; try (cbn; congruence).
    intro k. cbn. rewrite !O2, !N1, !O1. fold n.
    obj_cases k; cbn; rewrite ?O2, ?N1, ?O1; fold n; zeq; cbn; try rewrite Hl; reflexivity.
Qed.

Lemma newProgram_vertex_error env vf ff s v e s1 :
  compileShader env vf GL_VERTEX_SHADER s = Done (v, Some e) s1 ->
  newProgram env vf ff s = Done (0, Some e) s1.
Proof. intro E. unfold newProgram. rewrite (bind_done _ _ _ _ _ E). reflexivity. Qed.

Lemma newProgram_fragment_error env vf ff s v w e s1 s2 :
  compileShader env vf GL_VERTEX_SHADER s = Done (v, None) s1 ->
  compileShader env ff GL_FRAGMENT_SHADER s1 = Done (w, Some e) s2 ->
  newProgram env vf ff s = Done (0, Some e) s2.
Proof.
  intros E1 E2. unfold newProgram. rewrite (bind_done _ _ _ _ _ E1). cbv beta iota.
  rewrite (bind_done _ _ _ _ _ E2). reflexivity.
Qed.

(** ** Observations *)

Lemma draws_app a b : draws (a ++ b) = draws a ++ draws b.
Proof. apply flat_map_app. Qed.
Lemma uniform_writes_app a b : uniform_writes (a ++ b) = uniform_writes a ++ uniform_writes b.
Proof. apply flat_map_app. Qed.
Lemma uploads_app a b : uploads (a ++ b) = uploads a ++ uploads b.
Proof. apply flat_map_app. Qed.
Lemma uniform_writes_cons c l : uniform_writes (c :: l) = uniform_of c ++ uniform_writes l.
Proof. reflexivity. Qed.
Lemma draws_cons c l : draws (c :: l) = draw_of c ++ draws l.
Proof. reflexivity. Qed.
Lemma uploads_cons c l : uploads (c :: l) = upload_of c ++ uploads l.
Proof. reflexivity. Qed.

Ltac obs_simpl :=
  repeat progress rewrite ?uniform_writes_app, ?draws_app, ?uploads_app, ?uniform_writes_cons,
    ?draws_cons, ?uploads_cons;
  cbn [uniform_of draw_of upload_of upload_call view_call proj_call app].

Lemma flat_map_seq_S {A} (f : nat -> list A) a n :
  flat_map f (seq (S a) n) = flat_map (fun k => f (S k)) (seq a n).
Proof. revert a; induction n as [|n IH]; intro a; cbn; [reflexivity | f_equal; apply IH]. Qed.

Lemma draws_frames {A} u (f : A -> Q) l :
  draws (flat_map (fun k => frame_calls u (f k)) l) = repeat (GL_TRIANGLES, 0, 36) (length l).
Proof.
  induction l as [|a l IH]; [reflexivity|].
  change (draws (frame_calls u (f a) ++ flat_map (fun k => frame_calls u (f k)) l) =
          (GL_TRIANGLES, 0, 36) :: repeat (GL_TRIANGLES, 0, 36) (length l)).
  rewrite draws_app, IH. reflexivity.
Qed.

(** ** The render loop *)

Lemma render_loop_frames env r64 r32 N fuel uniModel startTime s :
  (N < fuel)%nat ->
  (forall k, (k < N)%nat -> env_should_close env (st_nclose s + k) = false) ->
  env_should_close env (st_nclose s + N) = true ->
  exists s',
    render_loop env r64 r32 fuel uniModel startTime s = Done tt s' /\
    st_trace s' = st_trace s ++
      flat_map (fun k => frame_calls uniModel
                           (rotation_angle r64 r32 startTime (env_time env (st_ntime s + k))))
               (seq 0 N) ++ [CShouldClose] /\
    st_ntime s' = (st_ntime s + N)%nat /\ st_nclose s' = (st_nclose s + N + 1)%nat /\
    st_next s' = st_next s /\ st_objs s' = st_objs s /\ st_attribs s' = st_attribs s /\
    st_error s' = st_error s.
Proof.
  revert fuel s. induction N as [|N IH]; intros fuel s Hf Hopen Hclose.
  - destruct fuel as [|fuel]; [lia|].
    rewrite Nat.add_0_r in Hclose.
    cbn. rewrite Hclose. eexists; split; [reflexivity|]. cbn.
    repeat split; lia.
  - destruct fuel as [|fuel]; [lia|].
    assert (H0 := Hopen 0%nat ltac:(lia)). rewrite Nat.add_0_r in H0.
    cbn. rewrite H0. cbn.
    match goal with |- exists s', render_loop _ _ _ _ _ _ ?st = _ /\ _ =>
      destruct (IH fuel st) as (s' & E & T & Ti & C & Nx & O & A & R) end.
    + lia.
    + intros k Hk. cbn. replace (S (st_nclose s + k)) with (st_nclose s + S k)%nat by lia.
      apply Hopen. lia.
    + cbn. replace (S (st_nclose s + N)) with (st_nclose s + S N)%nat by lia. exact Hclose.
    + exists s'. split; [exact E|]. rewrite T. cbn.
      rewrite Ti, C, Nx, O, A, R. cbn.
      assert (Hm : forall f : nat -> Q,
                 flat_map (fun k => frame_calls uniModel (f (S (st_ntime s + k)))) (seq 0 N) =
                 flat_map (fun k => frame_calls uniModel (f (st_ntime s + k)%nat)) (seq 1 N)).
      { intro f. rewrite flat_map_seq_S. apply flat_map_ext. intro k.
        rewrite Nat.add_succ_r. reflexivity. }
      rewrite (Hm (fun n => rotation_angle r64 r32 startTime (env_time env n))), Nat.add_0_r,
        <- !app_assoc.
      repeat split; try reflexivity; lia.
Qed.

(** ** Calls that write no uniform and draw nothing *)

Lemma quietM_ret {A} (a : A) : quietM (ret a).
Proof. intro s. exists []. rewrite app_nil_r. auto. Qed.
Lemma quietM_panic {A} p : quietM (A := A) (go_panic p).
Proof. intro s. exists []. rewrite app_nil_r. auto. Qed.
Lemma quietM_emit c : quiet_call c = true -> quietM (emit c).
Proof. intros H s. exists [c]. cbn. rewrite H. auto. Qed.
Lemma quietM_gets {A} (f : St -> A) : quietM (gets f).
Proof. intro s. exists []. rewrite app_nil_r. auto. Qed.
Lemma quietM_modify f : (forall s, st_trace (f s) = st_trace s) -> quietM (modify f).
Proof. intros H s. exists []. cbn. rewrite H, app_nil_r. auto. Qed.
Lemma quietM_bind {A B} (m : M A) (k : A -> M B) :
  quietM m -> (forall a, quietM (k a)) -> quietM (bind m k).
Proof.
  intros Hm Hk s. destruct (Hm s) as (e1 & T1 & Q1). unfold bind.
  destruct (m s) as [a s1|p s1|s1]; cbn in T1 |- *; try (exists e1; split; assumption).
  destruct (Hk a s1) as (e2 & T2 & Q2). exists (e1 ++ e2)%list.
  rewrite T2, T1, <- app_assoc. unfold quiet in *. rewrite forallb_app, Q1, Q2. auto.
Qed.

Ltac quiet_step :=
  match goal with
  | |- quietM (bind _ _) => apply quietM_bind; [ | intro ]
  | |- quietM (ret _) => apply quietM_ret
  | |- quietM (go_panic _) => apply quietM_panic
  | |- quietM (emit _) => apply quietM_emit; reflexivity
  | |- quietM (gets _) => apply quietM_gets
  | |- quietM (modify _) => apply quietM_modify; intro; reflexivity
  | |- quietM (match ?x with _ => _ end) => destruct x
  | |- quietM (if ?b then _ else _) => destruct b
  | |- quietM (let _ := _ in _) => cbv zeta
  end.

Lemma newProgram_quiet env vf ff : quietM (newProgram env vf ff).
Proof.
  unfold newProgram, compileShader, read_file, gl_str, strings_repeat, gl_create_shader,
    gl_shader_source, gl_compile_shader, gl_get_shaderiv, gl_get_shader_info_log,
    gl_create_program, gl_attach_shader, gl_link_program, gl_get_programiv,
    gl_get_program_info_log, gl_delete_shader, alloc_obj, modify_obj.
  repeat quiet_step.
Qed.

Lemma setup_attrib_quiet env program name size offset : quietM (setup_attrib env program name size offset).
Proof.
  unfold setup_attrib, gl_str, gl_get_attrib_location, gl_vertex_attrib_pointer,
    gl_enable_vertex_attrib_array.
  repeat quiet_step.
Qed.

Lemma newTexture_quiet env file texNum : quietM (newTexture env file texNum).
Proof.
  unfold newTexture, os_open, image_decode, NewRGBA, pixelBufferLength, gl_gen_texture,
    gl_active_texture, gl_bind_texture, gl_tex_parameteri, gl_tex_image_2d, alloc_obj.
  repeat quiet_step.
Qed.

(** ** The shape of the trace of [main] *)

Lemma quiet_app a b : quiet (a ++ b) = quiet a && quiet b.
Proof. apply forallb_app. Qed.

Lemma traceM_quiet {A} (m : M A) : quietM m -> traceM quietL m.
Proof. intros H s. exact (H s). Qed.

Lemma traceM_bind_quiet {A B} L (m : M A) (k : A -> M B) :
  quietM m -> (forall a, traceM (seqL quietL L) (k a)) -> traceM (seqL quietL L) (bind m k).
Proof.
  intros Hm Hk s. destruct (Hm s) as (e1 & T1 & Q1). unfold bind.
  destruct (m s) as [a s1|p s1|s1]; cbn in T1 |- *;
    try (exists e1; split; [exact T1 | exists e1, []; rewrite app_nil_r; auto]).
  destruct (Hk a s1) as (e2 & T2 & e2a & e2b & -> & Qa & Hb).
  exists (e1 ++ e2a ++ e2b)%list. split; [rewrite T2, T1, <- !app_assoc; reflexivity|].
  exists (e1 ++ e2a)%list, e2b. split; [apply app_assoc|]. split; [|exact Hb].
  unfold quietL in *. rewrite quiet_app, Q1, Qa. reflexivity.
Qed.

Lemma traceM_bind_cons {B} c L (k : unit -> M B) :
  (forall a, traceM L (k a)) -> traceM (consL c L) (bind (emit c) k).
Proof.
  intros Hk s. unfold bind at 1, emit at 1. cbv beta iota.
  destruct (Hk tt (set_trace s (st_trace s ++ [c]))) as (e & T & He).
  exists (c :: e). split; [rewrite T; cbn; rewrite <- app_assoc; reflexivity|].
  exists e. split; [reflexivity | exact He].
Qed.

Lemma traceM_panic {A} L p : traceM (seqL quietL L) (go_panic (A := A) p).
Proof.
  intro s. exists []. split; [rewrite app_nil_r; reflexivity|].
  exists [], []. split; [reflexivity|]. split; [reflexivity | left; reflexivity].
Qed.

Lemma traceM_front {A} L (m : M A) : traceM L m -> traceM (seqL quietL L) m.
Proof. intros H s. destruct (H s) as (e & T & He). exists e. split; [exact T|]. exists [], e. split; [reflexivity|]. split; [reflexivity | right; exact He]. Qed.

Lemma traceM_defer {A} L (body : M A) d :
  traceM L body -> quietM d -> traceM (seqL L quietL) (with_defer body d).
Proof.
  intros Hb Hd s. destruct (Hb s) as (e1 & T1 & L1). unfold with_defer.
  destruct (body s) as [a s1|p s1|s1]; cbn in T1 |- *;
    try (exists e1; split; [exact T1 | exists e1, []; rewrite app_nil_r; auto]);
    unfold bind; destruct (Hd s1) as (e2 & T2 & Q2); destruct (d s1) as [[] s2|p' s2|s2];
    cbn in T2 |- *; exists (e1 ++ e2)%list; (split; [rewrite T2, T1, <- !app_assoc; reflexivity|]);
    exists e1, e2; auto.
Qed.

Lemma traceM_uniform_location {B} env L p name (k : Z -> M B) :
  traceM (seqL quietL L) (k (env_uniform_loc env (c_string (name ++ nul_str)))) ->
  traceM (seqL quietL L) (bind (gl_get_uniform_location env p name) k).
Proof.
  intros Hk s. unfold gl_get_uniform_location, bind, emit, ret. cbv zeta beta.
  rewrite gl_str_nul. cbv beta iota.
  destruct (Hk (set_trace s (st_trace s ++ [CGetUniformLocation p (c_string (name ++ nul_str))])))
    as (e & T & e1 & e2 & -> & Q & H2).
  exists (CGetUniformLocation p (c_string (name ++ nul_str)) :: e1 ++ e2)%list.
  split; [rewrite T; cbn; rewrite <- app_assoc; reflexivity|].
  exists (CGetUniformLocation p (c_string (name ++ nul_str)) :: e1)%list, e2. auto.
Qed.

Lemma render_loop_loopL env r64 r32 fuel u st : traceM (loopL u) (render_loop env r64 r32 fuel u st).
Proof.
  induction fuel as [|fuel IH]; intro s.
  - exists []. split; [cbn; rewrite app_nil_r; reflexivity|]. exists [], []. auto.
  - cbn. destruct (env_should_close env (st_nclose s)).
    + exists [CShouldClose]. split; [reflexivity|]. exists [], [CShouldClose]. auto.
    + unfold bind, gl_clear, glfw_get_time, gl_uniform_matrix4fv, gl_draw_arrays,
        window_swap_buffers, glfw_poll_events, emit, gets, modify, ret. cbn.
      match goal with |- exists e, st_trace (res_state (render_loop _ _ _ _ _ _ ?st')) = _ /\ _ =>
        destruct (IH st') as (e & T & angles & tail & -> & Ht) end.
      eexists. split; [rewrite T; cbn; rewrite <- !app_assoc; reflexivity|].
      eexists (_ :: angles), tail. split; [reflexivity | exact Ht].
Qed.

Ltac solve_quiet :=
  first [ apply newProgram_quiet | apply setup_attrib_quiet | apply newTexture_quiet
        | unfold glfw_init, glfw_terminate, glfw_window_hint, glfw_create_window,
            make_context_current, gl_init, gl_use_program, gl_gen_vertex_arrays,
            gl_bind_vertex_array, gl_gen_buffers, gl_bind_buffer, glfw_get_time, gl_enable,
            gl_clear_color, alloc_obj; repeat quiet_step ].

Ltac lang_step :=
  match goal with
  | |- traceM (seqL quietL _) (bind (gl_get_uniform_location _ _ _) _) =>
      apply traceM_uniform_location
  | |- traceM (seqL quietL (consL _ _)) (bind (emit _) _) =>
      apply traceM_front, traceM_bind_cons; intro
  | |- traceM (consL _ _) (bind (emit _) _) => apply traceM_bind_cons; intro
  | |- traceM (seqL quietL _) (bind _ _) => apply traceM_bind_quiet; [solve_quiet | intro]
  | |- traceM (seqL quietL _) (go_panic _) => apply traceM_panic
  | |- traceM (seqL quietL _) (render_loop _ _ _ _ _ _) => apply traceM_front, render_loop_loopL
  | |- traceM _ (match ?x with _ => _ end) => destruct x
  | |- traceM _ (let _ := _ in _) => cbv zeta
  end.

Lemma main_trace env r64 r32 fuel : traceM (main_lang env r32) (main env r64 r32 fuel).
Proof.
  unfold main, main_lang. apply traceM_bind_quiet; [solve_quiet | intro err].
  destruct err as [e|]; [apply traceM_panic|].
  apply traceM_front, traceM_defer; [|solve_quiet].
  unfold main_body, gl_buffer_data, gl_uniform_matrix4fv.
  repeat lang_step.
Qed.

(** ** Uniforms, uploads and draws of [main] *)

Lemma quiet_obs e : quiet e = true ->
  uniform_writes e = [] /\ draws e = [] /\ uploads e = [] /\ ~ In CShouldClose e.
Proof.
  induction e as [|c e IH]; cbn; [tauto|]. intro H. apply andb_prop in H as [Hc He].
  destruct (IH He) as (U & D & P & S).
  destruct c; try discriminate Hc; cbn; rewrite ?U, ?D, ?P; repeat split; auto;
    (intros [H|H]; [discriminate H | exact (S H)]).
Qed.

Lemma loop_obs u e : loopL u e ->
  Forall (fun w => fst w = u) (uniform_writes e) /\
  length (uniform_writes e) = length (draws e) /\
  Forall (fun d => d = (GL_TRIANGLES, 0, 36)) (draws e) /\ uploads e = [].
Proof.
  intros (angles & tail & -> & Ht).
  rewrite uniform_writes_app, draws_app, uploads_app.
  assert (Tl : uniform_writes tail = [] /\ draws tail = [] /\ uploads tail = [])
    by (destruct Ht as [-> | ->]; auto).
  destruct Tl as (U & D & P). rewrite U, D, P, !app_nil_r.
  induction angles as [|a angles IH]; cbn; [repeat split; constructor|].
  destruct IH as (IU & IL & ID & IP).
  repeat split; cbn; try constructor; auto.
Qed.

Lemma main_shape env r64 r32 fuel s :
  exists pre loop fin,
    st_trace (res_state (main env r64 r32 fuel s)) = st_trace s ++ pre ++ loop ++ fin /\
    quiet fin = true /\ loopL (env_uniform_loc env "model") loop /\
    ((quiet pre = true /\ loop = []) \/
     (exists q1 q2, pre = q1 ++ upload_call :: q2 /\ quiet q1 = true /\ quiet q2 = true /\ loop = []) \/
     (exists q1 q2 q3, pre = q1 ++ upload_call :: q2 ++ view_call env :: proj_call env r32 :: q3 /\
                       quiet q1 = true /\ quiet q2 = true /\ quiet q3 = true)).
Proof.
  assert (E : loopL (env_uniform_loc env "model") []) by (exists [], []; auto).
  destruct (main_trace env r64 r32 fuel s) as (ext & T & q0 & r & -> & Q0 & Hr).
  unfold quietL in *. rewrite T.
  destruct Hr as [-> | (b & f & -> & Hb & Hf)].
  { exists q0, [], []. rewrite !app_nil_r. do 3 (split; [auto|]). left; auto. }
  assert (Qf : quiet f = true) by (destruct Hf as [-> | Hf]; auto).
  destruct Hb as (q1 & b1 & -> & Q1 & [-> | (b2 & -> & q2 & b3 & -> & Q2 & [-> | Hb3])]).
  - exists (q0 ++ q1), [], f. rewrite !app_nil_r, <- !app_assoc. do 3 (split; [auto|]).
    left. split; [rewrite quiet_app, Q0, Q1|]; reflexivity.
  - exists (q0 ++ q1 ++ upload_call :: q2), [], f. rewrite !app_nil_r, <- !app_assoc.
    do 3 (split; [auto|]). right; left. exists (q0 ++ q1), q2.
    rewrite <- !app_assoc, quiet_app, Q0, Q1. auto.
  - destruct Hb3 as (b4 & -> & b5 & -> & q3 & lp & -> & Q3 & Hlp).
    destruct Hlp as [-> | Hlp].
    + exists (q0 ++ q1 ++ upload_call :: q2 ++ view_call env :: proj_call env r32 :: q3), [], f.
      rewrite !app_nil_r, <- !app_assoc. do 3 (split; [auto|]). right; right.
      exists (q0 ++ q1), q2, q3. rewrite <- !app_assoc, quiet_app, Q0, Q1. auto.
    + exists (q0 ++ q1 ++ upload_call :: q2 ++ view_call env :: proj_call env r32 :: q3), lp, f.
      split; [repeat first [rewrite <- app_assoc | rewrite <- app_comm_cons]; reflexivity|].
      do 2 (split; [auto|]). right; right.
      exists (q0 ++ q1), q2, q3. rewrite <- !app_assoc, quiet_app, Q0, Q1. auto.
Qed.

Lemma frames_uniform_writes u angles :
  uniform_writes (flat_map (frame_calls u) angles) = map (fun a => (u, HomogRotate3DZ a)) angles.
Proof.
  induction angles as [|a angles IH]; [reflexivity|].
  change (uniform_writes (frame_calls u a ++ flat_map (frame_calls u) angles) =
          (u, HomogRotate3DZ a) :: map (fun a => (u, HomogRotate3DZ a)) angles).
  rewrite uniform_writes_app, IH. reflexivity.
Qed.

Lemma upload_call_eq : upload_call = CBufferData GL_ARRAY_BUFFER 1344 vertices GL_STATIC_DRAW.
Proof. reflexivity. Qed.

(** C7: in every run of [main], the uniforms written before the render loop
    are exactly [view] then [proj] (once each) when the loop is reached; every
    uniform written in the loop goes to the [model] location, one per frame
    (as many writes as draws); nothing is written after the loop. *)
Theorem main_uniforms env r64 r32 fuel s :
  exists pre loop fin,
    st_trace (res_state (main env r64 r32 fuel s)) = st_trace s ++ pre ++ loop ++ fin /\
    ~ In CShouldClose pre /\ draws pre = [] /\
    (uniform_writes pre = [] \/
     uniform_writes pre = [(env_uniform_loc env "view", view_matrix);
                           (env_uniform_loc env "proj", proj_matrix r32)]) /\
    (loop <> [] -> uniform_writes pre = [(env_uniform_loc env "view", view_matrix);
                                         (env_uniform_loc env "proj", proj_matrix r32)]) /\
    (exists angles tail,
        loop = flat_map (frame_calls (env_uniform_loc env "model")) angles ++ tail /\
        (tail = [] \/ tail = [CShouldClose])) /\
    Forall (fun w => fst w = env_uniform_loc env "model") (uniform_writes loop) /\
    length (uniform_writes loop) = length (draws loop) /\
    uniform_writes fin = [] /\ draws fin = [] /\ ~ In CShouldClose fin.
Proof.
  destruct (main_shape env r64 r32 fuel s) as (pre & loop & fin & T & Qf & Hl & Hpre).
  destruct (quiet_obs fin Qf) as (Uf & Df & _ & Sf).
  destruct (loop_obs _ _ Hl) as (Ul & Ll & _ & _).
  exists pre, loop, fin. split; [exact T|].
  destruct Hpre as [(Qp & ->) | [(q1 & q2 & -> & Q1 & Q2 & ->) | (q1 & q2 & q3 & -> & Q1 & Q2 & Q3)]].
  - destruct (quiet_obs pre Qp) as (U & D & _ & S).
    repeat split; auto. intro H; contradiction.
  - destruct (quiet_obs q1 Q1) as (U1 & D1 & _ & S1). destruct (quiet_obs q2 Q2) as (U2 & D2 & _ & S2).
    obs_simpl. rewrite U1, U2, D1, D2.
    repeat split; auto.
    + rewrite in_app_iff. intros [H|[H|H]]; [exact (S1 H) | discriminate H | exact (S2 H)].
    + intro H; contradiction.
  - destruct (quiet_obs q1 Q1) as (U1 & D1 & _ & S1). destruct (quiet_obs q2 Q2) as (U2 & D2 & _ & S2).
    destruct (quiet_obs q3 Q3) as (U3 & D3 & _ & S3).
    obs_simpl. rewrite U1, U2, U3, D1, D2, D3.
    repeat split; auto.
    rewrite in_app_iff. intros [H|[H|H]]; [exact (S1 H) | discriminate H |].
    rewrite in_app_iff in H. destruct H as [H|[H|[H|H]]]; try discriminate H; auto.
Qed.

Lemma forallb_seq_lt (f : nat -> bool) a n :
  forallb f (seq a n) = true -> forall i, (a <= i < a + n)%nat -> f i = true.
Proof.
  intros H i Hi. rewrite forallb_forall in H. apply H, in_seq. lia.
Qed.

(** C10: [vertices] holds 336 floats, 42 records of 8: 36 cube corners then
    6 ground-quad corners; a run of [main] uploads all of it once (1344 bytes,
    STATIC_DRAW) before any draw, and every draw covers vertices 0..35 only. *)
Theorem vertices_upload_and_draws env r64 r32 fuel s :
  length vertices = 336%nat /\
  (forall i, (i < 36)%nat -> length (vertex_record i) = 8%nat /\ cube_vertex (vertex_record i) = true) /\
  (forall i, (36 <= i < 42)%nat -> length (vertex_record i) = 8%nat /\ ground_vertex (vertex_record i) = true) /\
  exists ext,
    st_trace (res_state (main env r64 r32 fuel s)) = st_trace s ++ ext /\
    (uploads ext = [] \/ uploads ext = [(GL_ARRAY_BUFFER, 1344, vertices, GL_STATIC_DRAW)]) /\
    Forall (fun d => d = (GL_TRIANGLES, 0, 36)) (draws ext) /\
    (draws ext <> [] -> uploads ext = [(GL_ARRAY_BUFFER, 1344, vertices, GL_STATIC_DRAW)]).
Proof.
  split; [reflexivity|].
  split.
  { intros i Hi.
    assert (H := forallb_seq_lt (fun i => Nat.eqb (length (vertex_record i)) 8 &&
                                          cube_vertex (vertex_record i)) 0 36
                                ltac:(vm_compute; reflexivity) i ltac:(lia)).
    apply andb_prop in H as [H1 H2]. split; [apply Nat.eqb_eq|]; assumption. }
  split.
  { intros i Hi.
    assert (H := forallb_seq_lt (fun i => Nat.eqb (length (vertex_record i)) 8 &&
                                          ground_vertex (vertex_record i)) 36 6
                                ltac:(vm_compute; reflexivity) i ltac:(lia)).
    apply andb_prop in H as [H1 H2]. split; [apply Nat.eqb_eq|]; assumption. }
  destruct (main_shape env r64 r32 fuel s) as (pre & loop & fin & T & Qf & Hl & Hpre).
  destruct (quiet_obs fin Qf) as (_ & Df & Pf & _).
  destruct (loop_obs _ _ Hl) as (_ & _ & Dl & Pl).
  exists (pre ++ loop ++ fin). split; [exact T|].
  rewrite upload_call_eq in Hpre.
  destruct Hpre as [(Qp & ->) | [(q1 & q2 & -> & Q1 & Q2 & ->) | (q1 & q2 & q3 & -> & Q1 & Q2 & Q3)]].
  - destruct (quiet_obs pre Qp) as (_ & D & P & _). obs_simpl. rewrite D, P, Df, Pf.
    repeat split; auto. intro H; contradiction.
  - destruct (quiet_obs q1 Q1) as (_ & D1 & P1 & _). destruct (quiet_obs q2 Q2) as (_ & D2 & P2 & _).
    obs_simpl. rewrite D1, P1, D2, P2, Df, Pf. repeat split; auto.
  - destruct (quiet_obs q1 Q1) as (_ & D1 & P1 & _). destruct (quiet_obs q2 Q2) as (_ & D2 & P2 & _).
    destruct (quiet_obs q3 Q3) as (_ & D3 & P3 & _).
    obs_simpl. rewrite D1, P1, D2, P2, D3, P3, Df, Pf, Pl, !app_nil_r. cbn.
    repeat split; auto.
Qed.

(** ** Errors of [newProgram] *)

Lemma main_program_error env r64 r32 fuel s e :
  env_glfw_init env = true -> env_create_window env = true -> env_gl_init env = true ->
  (forall s1, exists h s2, newProgram env "vertex.glsl" "fragment.glsl" s1 = Done (h, Some e) s2) ->
  exists s', main env r64 r32 fuel s = Panicked (PanicError e) s'.
Proof.
  intros Hg Hw Hgl Hnp.
  unfold main, main_body, with_defer, bind, glfw_init, glfw_window_hint, glfw_create_window,
    make_context_current, gl_init, emit, ret.
  rewrite Hg. cbn -[newProgram setup_attrib newTexture render_loop vertices]. rewrite Hw. cbn -[newProgram setup_attrib newTexture render_loop vertices]. rewrite Hgl. cbn -[newProgram setup_attrib newTexture render_loop vertices].
  match goal with |- context [newProgram ?v ?a ?b ?st] => destruct (Hnp st) as (h & s2 & E); rewrite E end.
  cbn. eexists. reflexivity.
Qed.

(** C2 (corrected): when a shader's compile status is FALSE, [compileShader]
    returns handle 0 and the error "failed to compile <file>: <log>", which
    names the source file, not the shader kind, with the driver's log (and two
    NULs; a lone NUL if the log is empty). [newProgram] returns that same error
    with handle 0, and [main] panics with it, whether the failing file is
    [vertex.glsl] or, after the vertex shader compiled, [fragment.glsl]. *)
Theorem compile_failure_error env f ty s c log :
  env_fs env f = Some c ->
  env_compile env ty (c_string (c ++ nul_str)) = (false, log) ->
  info_log_length log + 1 < 2 ^ 31 ->
  let e := ErrorString ("failed to compile " ++ f ++ ": " ++ info_log_text log) in
  exists s',
    compileShader env f ty s = Done (0, Some e) s' /\
    st_trace s' = st_trace s ++ compile_calls f ty (st_next s) (c_string (c ++ nul_str)) false
                                              (info_log_length log) /\
    (ty = GL_VERTEX_SHADER -> forall ff, newProgram env f ff s = Done (0, Some e) s') /\
    (ty = GL_FRAGMENT_SHADER -> forall vf s0 v,
        compileShader env vf GL_VERTEX_SHADER s0 = Done (v, None) s ->
        newProgram env vf f s0 = Done (0, Some e) s') /\
    (env_glfw_init env = true -> env_create_window env = true -> env_gl_init env = true ->
     f = "vertex.glsl"%string -> ty = GL_VERTEX_SHADER ->
     forall r64 r32 fuel s0, exists s1, main env r64 r32 fuel s0 = Panicked (PanicError e) s1) /\
    (env_glfw_init env = true -> env_create_window env = true -> env_gl_init env = true ->
     f = "fragment.glsl"%string -> ty = GL_FRAGMENT_SHADER ->
     forall cv lv, env_fs env "vertex.glsl" = Some cv ->
     env_compile env GL_VERTEX_SHADER (c_string (cv ++ nul_str)) = (true, lv) ->
     info_log_length lv + 1 < 2 ^ 31 ->
     forall r64 r32 fuel s0, exists s1, main env r64 r32 fuel s0 = Panicked (PanicError e) s1).
Proof.
  intros Hf Hc Hl e.
  destruct (compileShader_compiled env f ty s c false log Hf Hc Hl) as (s' & E & T & _).
  exists s'. split; [exact E|]. split; [exact T|]. split; [|split; [|split]].
  - intros -> ff. apply newProgram_vertex_error with (v := 0). exact E.
  - intros -> vf s0 v E0. apply newProgram_fragment_error with (v := v) (w := 0) (s1 := s);
      [exact E0 | exact E].
  - intros Hg Hw Hgl -> -> r64 r32 fuel s0. apply main_program_error; auto.
    intro s1. destruct (compileShader_compiled env "vertex.glsl" GL_VERTEX_SHADER s1 c false log Hf Hc Hl)
      as (s2 & E2 & _). exists 0, s2. apply newProgram_vertex_error with (v := 0). exact E2.
  - intros Hg Hw Hgl -> -> cv lv Hv Hcv Hlv r64 r32 fuel s0. apply main_program_error; auto.
    intro s1.
    destruct (compileShader_compiled env "vertex.glsl" GL_VERTEX_SHADER s1 cv true lv Hv Hcv Hlv)
      as (s2 & E2 & _).
    destruct (compileShader_compiled env "fragment.glsl" GL_FRAGMENT_SHADER s2 c false log Hf Hc Hl)
      as (s3 & E3 & _).
    exists 0, s3. exact (newProgram_fragment_error _ _ _ _ _ _ _ _ _ E2 E3).
Qed.

(** C3: when both shaders compile and the link status is FALSE, [newProgram]
    returns handle 0 and the error "failed to link program: <log>" carrying
    the driver's link log, and [main] panics with it. *)
Theorem link_failure_aborts env s cv cf lv lf llog :
  env_fs env "vertex.glsl" = Some cv ->
  env_compile env GL_VERTEX_SHADER (c_string (cv ++ nul_str)) = (true, lv) ->
  env_fs env "fragment.glsl" = Some cf ->
  env_compile env GL_FRAGMENT_SHADER (c_string (cf ++ nul_str)) = (true, lf) ->
  env_link env [(GL_VERTEX_SHADER, c_string (cv ++ nul_str));
                (GL_FRAGMENT_SHADER, c_string (cf ++ nul_str))] = (false, llog) ->
  info_log_length lv + 1 < 2 ^ 31 -> info_log_length lf + 1 < 2 ^ 31 ->
  info_log_length llog + 1 < 2 ^ 31 ->
  let e := ErrorString ("failed to link program: " ++ info_log_text llog) in
  (exists s', newProgram env "vertex.glsl" "fragment.glsl" s = Done (0, Some e) s') /\
  (env_glfw_init env = true -> env_create_window env = true -> env_gl_init env = true ->
   forall r64 r32 fuel, exists s', main env r64 r32 fuel s = Panicked (PanicError e) s').
Proof.
  intros Hv Hcv Hf Hcf Hl Hlv Hlf Hll e. split.
  - destruct (newProgram_linked env "vertex.glsl" "fragment.glsl" s cv cf lv lf false llog
                Hv Hcv Hf Hcf Hl Hlv Hlf Hll) as (s' & E & _). exists s'. exact E.
  - intros Hg Hw Hgl r64 r32 fuel. apply main_program_error; auto. intro s1.
    destruct (newProgram_linked env "vertex.glsl" "fragment.glsl" s1 cv cf lv lf false llog
                Hv Hcv Hf Hcf Hl Hlv Hlf Hll) as (s2 & E & _). exists 0, s2. exact E.
Qed.

(** C4 (corrected): the objects [newProgram] leaves behind. After a successful
    link both shaders are flagged for deletion and the program is live. After
    a failed compile or link nothing is released: the shaders created so far
    stay undeleted and a program created by a failed link stays live; the
    handle returned on failure is 0. *)
Theorem newProgram_object_lifetimes env vf ff s cv cf okv okf okl lv lf llog :
  env_fs env vf = Some cv ->
  env_compile env GL_VERTEX_SHADER (c_string (cv ++ nul_str)) = (okv, lv) ->
  env_fs env ff = Some cf ->
  env_compile env GL_FRAGMENT_SHADER (c_string (cf ++ nul_str)) = (okf, lf) ->
  env_link env [(GL_VERTEX_SHADER, c_string (cv ++ nul_str));
                (GL_FRAGMENT_SHADER, c_string (cf ++ nul_str))] = (okl, llog) ->
  info_log_length lv + 1 < 2 ^ 31 -> info_log_length lf + 1 < 2 ^ 31 ->
  info_log_length llog + 1 < 2 ^ 31 ->
  let n := st_next s in
  let ok := okv && okf && okl in
  exists r s',
    newProgram env vf ff s = Done r s' /\
    (snd r = None <-> ok = true) /\ (ok = false -> fst r = 0) /\
    (forall k, st_objs s' k =
       if k =? n then Some (ShaderObj GL_VERTEX_SHADER (c_string (cv ++ nul_str)) (Some (okv, lv)) ok)
       else if k =? n + 1 then
         (if okv then Some (ShaderObj GL_FRAGMENT_SHADER (c_string (cf ++ nul_str)) (Some (okf, lf)) ok)
          else st_objs s k)
       else if k =? n + 2 then
         (if okv && okf then Some (ProgramObj [n; n + 1] (Some (okl, llog))) else st_objs s k)
       else st_objs s k).
Proof.
  intros Hv Hcv Hf Hcf Hl Hlv Hlf Hll n ok.
  destruct okv.
  - destruct (compileShader_compiled env vf GL_VERTEX_SHADER s cv true lv Hv Hcv Hlv)
      as (s1 & E1 & T1 & N1 & O1 & _).
    destruct okf.
    + destruct (newProgram_linked env vf ff s cv cf lv lf okl llog Hv Hcv Hf Hcf Hl Hlv Hlf Hll)
        as (s' & E & _ & _ & O & _).
      eexists _, s'. split; [exact E|]. split.
      * subst ok. destruct okl; cbn; split; congruence.
      * split; [subst ok; destruct okl; cbn; [discriminate | reflexivity]|].
        intro k. rewrite O. subst ok. reflexivity.
    + destruct (compileShader_compiled env ff GL_FRAGMENT_SHADER s1 cf false lf Hf Hcf Hlf)
        as (s2 & E2 & T2 & N2 & O2 & _).
      eexists _, s2. split; [exact (newProgram_fragment_error _ _ _ _ _ _ _ _ _ E1 E2)|]. split.
      * subst ok. cbn. split; discriminate.
      * split; [reflexivity|]. intro k. subst ok n. rewrite O2, N1, O1. cbn.
        destruct (Z.eqb_spec k (st_next s)); destruct (Z.eqb_spec k (st_next s + 1));
          destruct (Z.eqb_spec k (st_next s + 2)); try lia; reflexivity.
  - destruct (compileShader_compiled env vf GL_VERTEX_SHADER s cv false lv Hv Hcv Hlv)
      as (s1 & E1 & T1 & N1 & O1 & _).
    eexists _, s1. split; [exact (newProgram_vertex_error _ _ _ _ _ _ _ E1)|]. split.
    + subst ok. cbn. split; discriminate.
    + split; [reflexivity|]. intro k. subst ok n. rewrite O1. cbn.
      destruct (Z.eqb_spec k (st_next s)); destruct (Z.eqb_spec k (st_next s + 1));
        destruct (Z.eqb_spec k (st_next s + 2)); try lia; reflexivity.
Qed.

(** ** [newTexture] and the vertex attributes *)

Lemma NewRGBA_stride_check r :
  negb (wrap64 (4 * Dx r) =? wrap64 (Dx r * 4)) = false.
Proof. rewrite Z.mul_comm, Z.eqb_refl. reflexivity. Qed.

Lemma newTexture_error_cases env file texNum s tex e s' :
  newTexture env file texNum s = Done (tex, Some e) s' ->
  env_fs env file = None /\ e = PathError "open" file.
Proof.
  unfold newTexture, os_open, image_decode, NewRGBA, pixelBufferLength, gl_gen_texture,
    gl_active_texture, gl_bind_texture, gl_tex_parameteri, gl_tex_image_2d, alloc_obj,
    bind, emit, ret, gets, modify, go_panic.
  cbn -[draw_src mul3NonNeg wrap64 Dx Dy wrap32 Z.mul].
  destruct (env_fs env file) as [c|].
  - destruct (env_decode env c) as [[[img|] fmt] d]; [|discriminate].
    destruct (mul3NonNeg 4 (Dx (Bounds img)) (Dy (Bounds img)) <? 0); [discriminate|].
    cbn [Stride RRect]. rewrite NewRGBA_stride_check. cbn. discriminate.
  - intro H. injection H as _ <- _. auto.
Qed.

Lemma newTexture_decoded env file texNum s c img fmt d :
  env_fs env file = Some c ->
  env_decode env c = (Some img, fmt, d) ->
  0 <= mul3NonNeg 4 (Dx (Bounds img)) (Dy (Bounds img)) ->
  exists s', newTexture env file texNum s = Done (st_next s, None) s' /\
             st_trace s' = st_trace s ++ texture_calls file texNum (st_next s) img /\
             st_next s' = st_next s + 1.
Proof.
  intros Hf Hd Hn.
  unfold newTexture, os_open, image_decode, NewRGBA, pixelBufferLength, gl_gen_texture,
    gl_active_texture, gl_bind_texture, gl_tex_parameteri, gl_tex_image_2d, alloc_obj,
    bind, emit, ret, gets, modify, go_panic.
  cbn -[draw_src mul3NonNeg wrap64 Dx Dy wrap32 Z.mul].
  rewrite Hf. cbn -[draw_src mul3NonNeg wrap64 Dx Dy wrap32 Z.mul]. rewrite Hd.
  replace (mul3NonNeg 4 (Dx (Bounds img)) (Dy (Bounds img)) <? 0) with false
    by (symmetry; apply Z.ltb_ge; exact Hn).
  cbn [Stride RRect]. rewrite NewRGBA_stride_check.
  eexists. split; [reflexivity|]. cbn. rewrite <- !app_assoc. split; reflexivity.
Qed.



Lemma newTexture_nil_image env file texNum s c fmt d :
  env_fs env file = Some c -> env_decode env c = (None, fmt, d) ->
  exists s', newTexture env file texNum s = Panicked nil_dereference s'.
Proof.
  intros Hf Hd. unfold newTexture, os_open, image_decode, bind, emit, ret.
  cbn -[draw_src mul3NonNeg wrap64 Dx Dy wrap32 Z.mul]. rewrite Hf.
  cbn -[draw_src mul3NonNeg wrap64 Dx Dy wrap32 Z.mul]. rewrite Hd.
  eexists. reflexivity.
Qed.

(** C5: [newTexture] never returns the decoder's error. Its only error return
    is the one of [os.Open]; a file that opens but does not decode to an image
    makes it panic on the nil image, and a decoded image is uploaded whatever
    error the decoder returned with it. *)
Theorem newTexture_decode_error_discarded env file texNum s :
  (forall tex e s', newTexture env file texNum s = Done (tex, Some e) s' ->
                    env_fs env file = None /\ e = PathError "open" file) /\
  (forall c fmt d, env_fs env file = Some c -> env_decode env c = (None, fmt, d) ->
                   exists s', newTexture env file texNum s = Panicked nil_dereference s') /\
  (forall c img fmt d, env_fs env file = Some c -> env_decode env c = (Some img, fmt, d) ->
     0 <= mul3NonNeg 4 (Dx (Bounds img)) (Dy (Bounds img)) ->
     exists s', newTexture env file texNum s = Done (st_next s, None) s').
Proof.
  split; [|split].
  - intros tex e s'. apply newTexture_error_cases.
  - intros c fmt d. apply newTexture_nil_image.
  - intros c img fmt d Hf Hd Hn.
    destruct (newTexture_decoded env file texNum s c img fmt d Hf Hd Hn) as (s' & E & _).
    exists s'. exact E.
Qed.

Lemma setup_attrib_done env program name size offset s :
  exists s', setup_attrib env program name size offset s = Done tt s'.
Proof.
  unfold setup_attrib, gl_get_attrib_location, gl_vertex_attrib_pointer,
    gl_enable_vertex_attrib_array, bind, emit, ret, modify. cbv zeta.
  rewrite gl_str_nul. eexists. reflexivity.
Qed.



Lemma newProgram_attrib_loc env g vf ff s :
  newProgram (with_attrib_loc env g) vf ff s = newProgram env vf ff s.
Proof. reflexivity. Qed.

(** C6: when [GetAttribLocation] answers -1 (an attribute the linked program
    does not use), [setup_attrib] does not crash: it passes -1 cast to uint32,
    4294967295, to [VertexAttribPointer] and [EnableVertexAttribArray], which
    change no attribute and only record GL_INVALID_VALUE; linking does not
    depend on the attribute locations. *)
Theorem inactive_attribute_noop env program name size offset s :
  env_attrib_loc env (c_string (name ++ nul_str)) = -1 ->
  env_max_attribs env <= 4294967295 ->
  exists s',
    setup_attrib env program name size offset s = Done tt s' /\
    st_trace s' = st_trace s ++
      [CGetAttribLocation program (c_string (name ++ nul_str));
       CVertexAttribPointer 4294967295 size GL_FLOAT false 32 offset;
       CEnableVertexAttribArray 4294967295] /\
    st_attribs s' = st_attribs s /\ st_objs s' = st_objs s /\ st_next s' = st_next s /\
    st_error s' = record_error GL_INVALID_VALUE (st_error s) /\
    (forall g vf ff s0, newProgram (with_attrib_loc env g) vf ff s0 = newProgram env vf ff s0).
Proof.
  intros Hloc Hmax.
  unfold setup_attrib, gl_get_attrib_location, gl_vertex_attrib_pointer,
    gl_enable_vertex_attrib_array, bind, emit, ret, modify. cbv zeta.
  rewrite gl_str_nul. cbn -[c_string]. rewrite Hloc.
  replace (uint32_of_int32 (-1) >=? env_max_attribs env) with true
    by (symmetry; apply Z.geb_le; cbn; lia).
  eexists. split; [reflexivity|]. cbn. rewrite <- !app_assoc.
  repeat split; try reflexivity.
  - unfold record_error, GL_NO_ERROR, GL_INVALID_VALUE.
    destruct (st_error s =? 0) eqn:E; cbn; rewrite ?E; reflexivity.
Qed.

(** ** Frames of the render loop *)

(** C1: a run of the render loop that the window stops after [N] frames:
    each frame is, in this order, the [ShouldClose] test, [Clear] of the color
    and depth buffers, [GetTime], the upload to [uniModel] of the rotation
    about Z by (time - start time), one [DrawArrays(TRIANGLES, 0, 36)],
    [SwapBuffers] and [PollEvents]; the run issues exactly [N] draw calls, each
    of 36 vertices. *)
Theorem render_loop_draws env r64 r32 N fuel uniModel startTime s :
  (N < fuel)%nat ->
  (forall k, (k < N)%nat -> env_should_close env (st_nclose s + k) = false) ->
  env_should_close env (st_nclose s + N) = true ->
  exists s',
    render_loop env r64 r32 fuel uniModel startTime s = Done tt s' /\
    st_trace s' = st_trace s ++
      flat_map (fun k => frame_calls uniModel
                           (rotation_angle r64 r32 startTime (env_time env (st_ntime s + k))))
               (seq 0 N) ++ [CShouldClose] /\
    draws (st_trace s') = draws (st_trace s) ++ repeat (GL_TRIANGLES, 0, 36) N.
Proof.
  intros Hf Hopen Hclose.
  destruct (render_loop_frames env r64 r32 N fuel uniModel startTime s Hf Hopen Hclose)
    as (s' & E & T & _).
  exists s'. split; [exact E|]. split; [exact T|].
  rewrite T, !draws_app, draws_frames, length_seq. cbn. rewrite app_nil_r. reflexivity.
Qed.

(** ** The rotation angle *)

Lemma Qabs_cases q : (0 <= q /\ Qabs q == q)%Q \/ (q <= 0 /\ Qabs q == - q)%Q.
Proof.
  destruct (Qlt_le_dec q 0) as [H|H].
  - right. split; [lra | apply Qabs_neg; lra].
  - left. split; [lra | apply Qabs_pos; lra].
Qed.

(** Rounding to nearest is monotone. *)
Lemma nearest_monotone F rnd x y :
  nearest F rnd -> (x <= y)%Q -> (rnd x <= rnd y)%Q.
Proof.
  intros (HF & Hn & He) Hxy.
  destruct (Qlt_le_dec (rnd y) (rnd x)) as [Hlt|Hle]; [exfalso|exact Hle].
  assert (H1 := Hn x (rnd y) (HF y)). assert (H2 := Hn y (rnd x) (HF x)).
  assert (Exy : (x == y)%Q).
  { destruct (Qabs_cases (x - rnd x)) as [[? E1]|[? E1]];
      destruct (Qabs_cases (x - rnd y)) as [[? E2]|[? E2]];
      destruct (Qabs_cases (y - rnd y)) as [[? E3]|[? E3]];
      destruct (Qabs_cases (y - rnd x)) as [[? E4]|[? E4]]; lra. }
  assert (H := He x y Exy). lra.
Qed.

Lemma nearest_exact : nearest (fun _ => True) (fun q => q).
Proof.
  split; [intros; exact I|]. split; [|intros x y H; exact H].
  intros x f _. pose proof (Qabs_nonneg (x - f)).
  destruct (Qabs_cases (x - x)) as [[_ E]|[_ E]]; lra.
Qed.

(** C8: when float64 subtraction and the float32 conversion round to nearest
    (any tie rule), the rotation angle [float32(t - startTime)] of the render
    loop is monotone in the time [t]: t1 <= t2 gives angle t1 <= angle t2. *)
Theorem rotation_angle_monotone F64 F32 round64 round32 startTime t1 t2 :
  nearest F64 round64 -> nearest F32 round32 -> (t1 <= t2)%Q ->
  (rotation_angle round64 round32 startTime t1 <= rotation_angle round64 round32 startTime t2)%Q.
Proof.
  intros H64 H32 Ht. unfold rotation_angle.
  apply (nearest_monotone F32); [exact H32|].
  apply (nearest_monotone F64); [exact H64|]. lra.
Qed.

(** ** The other programs, errors and edge cases *)

Section RelM.
Variable R : St -> St -> Prop.
Hypothesis R_refl : forall s, R s s.
Hypothesis R_trans : forall s1 s2 s3, R s1 s2 -> R s2 s3 -> R s1 s3.

Lemma relM_ret {A} (a : A) : relM R (ret a).
Proof. intro s. apply R_refl. Qed.
Lemma relM_panic {A} p : relM R (go_panic (A := A) p).
Proof. intro s. apply R_refl. Qed.
Lemma relM_gets {A} (f : St -> A) : relM R (gets f).
Proof. intro s. apply R_refl. Qed.
Lemma relM_bind {A B} (m : M A) (k : A -> M B) :
  relM R m -> (forall a, relM R (k a)) -> relM R (bind m k).
Proof.
  intros Hm Hk s. specialize (Hm s). unfold bind.
  destruct (m s) as [a s1|p s1|s1]; cbn in Hm |- *; try exact Hm.
  exact (R_trans _ _ _ Hm (Hk a s1)).
Qed.
Lemma relM_defer {A} (body : M A) d : relM R body -> relM R d -> relM R (with_defer body d).
Proof.
  intros Hb Hd s. specialize (Hb s). unfold with_defer.
  destruct (body s) as [a s1|p s1|s1]; cbn in Hb |- *; try exact Hb;
    unfold bind; specialize (Hd s1); destruct (d s1); cbn in Hd |- *; eauto.
Qed.
End RelM.

Lemma trace_rel_refl L : L [] -> forall s, trace_rel L s s.
Proof. intros H s. exists []. rewrite app_nil_r. auto. Qed.
Lemma trace_rel_trans L : (forall a b, L a -> L b -> L (a ++ b)) ->
  forall s1 s2 s3, trace_rel L s1 s2 -> trace_rel L s2 s3 -> trace_rel L s1 s3.
Proof.
  intros H s1 s2 s3 (e1 & T1 & L1) (e2 & T2 & L2). exists (e1 ++ e2).
  rewrite T2, T1, app_assoc. auto.
Qed.

Lemma obs_free_nil : obs_free [].
Proof. repeat split. Qed.
Lemma obs_free_app a b : obs_free a -> obs_free b -> obs_free (a ++ b).
Proof.
  intros (D1 & U1 & P1) (D2 & U2 & P2). unfold obs_free.
  rewrite draws_app, uniform_writes_app, uploads_app, D1, U1, P1, D2, U2, P2. auto.
Qed.

Lemma relM_obs_quiet {A} (m : M A) : quietM m -> relM (trace_rel obs_free) m.
Proof.
  intros H s. destruct (H s) as (e & T & Q). exists e. split; [exact T|].
  destruct (quiet_obs e Q) as (U & D & P & _). repeat split; assumption.
Qed.

Lemma relM_obs_emit c : obs_free [c] -> relM (trace_rel obs_free) (emit c).
Proof. intros H s. exists [c]. auto. Qed.

Lemma relM_obs_modify f : (forall s, st_trace (f s) = st_trace s) ->
  relM (trace_rel obs_free) (modify f).
Proof. intros H s. exists []. cbn. rewrite H, app_nil_r. split; [reflexivity | apply obs_free_nil]. Qed.

Ltac obs_step :=
  match goal with
  | |- relM _ (bind _ _) =>
      apply relM_bind; [apply trace_rel_trans, obs_free_app | | intro ]
  | |- relM _ (with_defer _ _) =>
      apply relM_defer; [apply trace_rel_trans, obs_free_app | | ]
  | |- relM _ (ret _) => apply relM_ret; intros; apply trace_rel_refl, obs_free_nil
  | |- relM _ (go_panic _) => apply relM_panic; intros; apply trace_rel_refl, obs_free_nil
  | |- relM _ (newProgram _ _ _) => apply relM_obs_quiet, newProgram_quiet
  | |- relM _ (emit _) => apply relM_obs_emit; repeat split
  | |- relM _ (gets _) => apply relM_gets; intros; apply trace_rel_refl, obs_free_nil
  | |- relM _ (modify _) => apply relM_obs_modify; intro; reflexivity
  | |- relM _ (match ?x with _ => _ end) => destruct x
  | |- relM _ (if ?b then _ else _) => destruct b
  end.

Lemma clear_render_loop_obs env fuel : relM (trace_rel obs_free) (ClearScreen.render_loop env fuel).
Proof.
  induction fuel as [|fuel IH].
  - intro s. apply trace_rel_refl, obs_free_nil.
  - cbn [ClearScreen.render_loop].
    unfold window_should_close, gl_clear, window_swap_buffers, glfw_poll_events.
    repeat obs_step. exact IH.
Qed.

(** The earlier program of [vertex.glsl] never draws, writes a uniform or
    uploads a buffer: whether it returns, panics or runs out of fuel, the
    calls it appends to the trace contain none of these. *)
Theorem clear_screen_main_obs_free env fuel s :
  exists ext, st_trace (res_state (ClearScreen.main env fuel s)) = st_trace s ++ ext /\
              draws ext = [] /\ uniform_writes ext = [] /\ uploads ext = [].
Proof.
  assert (H : relM (trace_rel obs_free) (ClearScreen.main env fuel)).
  { unfold ClearScreen.main, ClearScreen.main_body, glfw_init, glfw_terminate, glfw_window_hint,
      glfw_create_window, make_context_current, gl_init, gl_use_program.
    repeat obs_step; apply clear_render_loop_obs. }
  exact (H s).
Qed.

Lemma relM_any_traceM {A} L (m : M A) : traceM L m -> relM (trace_rel anyL) m.
Proof. intros H s. destruct (H s) as (e & T & _). exists e. split; [exact T | exact I]. Qed.
Lemma relM_any_quiet {A} (m : M A) : quietM m -> relM (trace_rel anyL) m.
Proof. intros H s. destruct (H s) as (e & T & _). exists e. split; [exact T | exact I]. Qed.
Lemma any_refl s : trace_rel anyL s s.
Proof. apply trace_rel_refl. exact I. Qed.
Lemma any_trans s1 s2 s3 : trace_rel anyL s1 s2 -> trace_rel anyL s2 s3 -> trace_rel anyL s1 s3.
Proof. apply trace_rel_trans. intros; exact I. Qed.

Ltac any_step :=
  match goal with
  | |- relM _ (bind _ _) => apply relM_bind; [exact any_trans | | intro ]
  | |- relM _ (with_defer _ _) => apply relM_defer; [exact any_trans | | ]
  | |- relM _ (ret _) => apply relM_ret; exact any_refl
  | |- relM _ (go_panic _) => apply relM_panic; exact any_refl
  | |- relM _ (gets _) => apply relM_gets; exact any_refl
  | |- relM _ (newProgram _ _ _) => apply relM_any_quiet, newProgram_quiet
  | |- relM _ (setup_attrib _ _ _ _ _) => apply relM_any_quiet, setup_attrib_quiet
  | |- relM _ (newTexture _ _ _) => apply relM_any_quiet, newTexture_quiet
  | |- relM _ (render_loop _ _ _ _ _ _) => eapply relM_any_traceM, render_loop_loopL
  | |- relM _ (emit _) => intro; eexists; split; [reflexivity | exact I]
  | |- relM _ (modify _) => intro; exists []; cbn; rewrite app_nil_r; split; [reflexivity | exact I]
  | |- relM _ (match ?x with _ => _ end) => destruct x
  | |- relM _ (if ?b then _ else _) => destruct b
  | |- relM _ (let _ := _ in _) => cbv zeta
  end.


Lemma main_body_appends env r64 r32 fuel : relM (trace_rel anyL) (main_body env r64 r32 fuel).
Proof.
  unfold main_body, glfw_window_hint, glfw_create_window, make_context_current, gl_init,
    gl_use_program, gl_gen_vertex_arrays, gl_bind_vertex_array, gl_gen_buffers, gl_bind_buffer,
    gl_buffer_data, gl_get_uniform_location, gl_uniform_matrix4fv, glfw_get_time, gl_enable,
    gl_clear_color, gl_str, alloc_obj.
  repeat any_step.
Qed.

Lemma glfw_only_refl s : glfw_only s s.
Proof. split; [exists []; rewrite app_nil_r; auto | auto]. Qed.
Lemma glfw_only_trans s1 s2 s3 : glfw_only s1 s2 -> glfw_only s2 s3 -> glfw_only s1 s3.
Proof.
  intros (T1 & N1 & O1 & A1 & E1) (T2 & N2 & O2 & A2 & E2).
  split; [|rewrite N2, O2, A2, E2; auto].
  revert T1 T2. apply trace_rel_trans. intros a b Ha Hb. rewrite forallb_app, Ha, Hb. reflexivity.
Qed.

Ltac glfw_step :=
  match goal with
  | |- relM _ (bind _ _) => apply relM_bind; [exact glfw_only_trans | | intro ]
  | |- relM _ (with_defer _ _) => apply relM_defer; [exact glfw_only_trans | | ]
  | |- relM _ (ret _) => apply relM_ret; exact glfw_only_refl
  | |- relM _ (go_panic _) => apply relM_panic; exact glfw_only_refl
  | |- relM _ (gets _) => apply relM_gets; exact glfw_only_refl
  | |- relM _ (emit _) => intro; split; [eexists; split; [reflexivity | reflexivity] | auto]
  | |- relM _ (modify _) =>
      intro; split; [exists []; cbn; rewrite app_nil_r; split; reflexivity | auto]
  | |- relM _ (match ?x with _ => _ end) => destruct x
  | |- relM _ (if ?b then _ else _) => destruct b
  end.

Lemma main_go_loop_glfw env fuel : relM glfw_only (MainGo.render_loop env fuel).
Proof.
  induction fuel as [|fuel IH]; [intro; apply glfw_only_refl|].
  cbn [MainGo.render_loop].
  unfold window_should_close, window_swap_buffers, glfw_poll_events.
  repeat glfw_step. exact IH.
Qed.

(** The program of [main.go] only makes GLFW calls and [gl.Init], and leaves
    the GL objects, vertex attributes and error flag as they were. *)
Theorem main_go_glfw_only env fuel s :
  exists ext, st_trace (res_state (MainGo.main env fuel s)) = st_trace s ++ ext /\
    forallb glfw_call ext = true /\
    st_next (res_state (MainGo.main env fuel s)) = st_next s /\
    st_objs (res_state (MainGo.main env fuel s)) = st_objs s /\
    st_attribs (res_state (MainGo.main env fuel s)) = st_attribs s /\
    st_error (res_state (MainGo.main env fuel s)) = st_error s.
Proof.
  assert (H : relM glfw_only (MainGo.main env fuel)).
  { unfold MainGo.main, MainGo.main_body, glfw_init, glfw_terminate, glfw_window_hint,
      glfw_create_window, make_context_current, gl_init.
    repeat glfw_step. apply main_go_loop_glfw. }
  destruct (H s) as ((e & T & F) & N & O & A & E). exists e. repeat split; assumption.
Qed.

(** When the window reports closing at the [N]-th test (and [N] is below the
    fuel), the loop of the earlier program runs [N] frames of [ShouldClose],
    [Clear(COLOR_BUFFER_BIT)], [SwapBuffers] and [PollEvents], tests
    [ShouldClose] once more and returns, creating no GL object. *)
Theorem clear_screen_frames env N fuel s :
  (N < fuel)%nat ->
  (forall k, (k < N)%nat -> env_should_close env (st_nclose s + k) = false) ->
  env_should_close env (st_nclose s + N) = true ->
  exists s',
    ClearScreen.render_loop env fuel s = Done tt s' /\
    st_trace s' = st_trace s ++ concat (repeat clear_frame_calls N) ++ [CShouldClose] /\
    st_next s' = st_next s /\ st_objs s' = st_objs s /\ st_attribs s' = st_attribs s /\
    st_ntime s' = st_ntime s.
Proof.
  revert fuel s. induction N as [|N IH]; intros fuel s Hf Hopen Hclose.
  - destruct fuel as [|fuel]; [lia|].
    rewrite Nat.add_0_r in Hclose.
    cbn. rewrite Hclose. eexists; split; [reflexivity|]. cbn. auto.
  - destruct fuel as [|fuel]; [lia|].
    assert (H0 := Hopen 0%nat ltac:(lia)). rewrite Nat.add_0_r in H0.
    cbn. rewrite H0. cbn.
    match goal with |- exists s', ClearScreen.render_loop _ _ ?st = _ /\ _ =>
      destruct (IH fuel st) as (s' & E & T & Nx & O & A & Ti) end.
    + lia.
    + intros k Hk. cbn. replace (S (st_nclose s + k)) with (st_nclose s + S k)%nat by lia.
      apply Hopen. lia.
    + cbn. replace (S (st_nclose s + N)) with (st_nclose s + S N)%nat by lia. exact Hclose.
    + exists s'. split; [exact E|]. rewrite T, Nx, O, A, Ti. cbn.
      rewrite <- !app_assoc. auto.
Qed.

Lemma defer_terminate_last {A} (body : M A) s :
  relM (trace_rel anyL) body ->
  finished (with_defer body glfw_terminate s) = true ->
  exists e, st_trace (res_state (with_defer body glfw_terminate s)) =
            st_trace s ++ e ++ [CGlfwTerminate].
Proof.
  intros Hb Hf. destruct (Hb s) as (e & T & _). unfold with_defer in *.
  destruct (body s) as [a s1|p s1|s1]; cbn in T, Hf |- *; [| |discriminate];
    exists e; rewrite T, <- app_assoc; reflexivity.
Qed.

Lemma clear_screen_body_appends env fuel : relM (trace_rel anyL) (ClearScreen.main_body env fuel).
Proof.
  assert (L : relM (trace_rel anyL) (ClearScreen.render_loop env fuel)).
  { intro s. destruct (clear_render_loop_obs env fuel s) as (e & T & _). exists e. split; [exact T | exact I]. }
  unfold ClearScreen.main_body, glfw_window_hint, glfw_create_window, make_context_current, gl_init,
    gl_use_program.
  repeat any_step. exact L.
Qed.

Lemma main_go_body_appends env fuel : relM (trace_rel anyL) (MainGo.main_body env fuel).
Proof.
  intro s.
  assert (L : relM glfw_only (MainGo.main_body env fuel)).
  { unfold MainGo.main_body, glfw_window_hint, glfw_create_window, make_context_current, gl_init.
    repeat glfw_step. apply main_go_loop_glfw. }
  destruct (L s) as ((e & T & _) & _). exists e. split; [exact T | exact I].
Qed.


Lemma main_glfw_ok env r64 r32 fuel s :
  env_glfw_init env = true ->
  main env r64 r32 fuel s =
    with_defer (main_body env r64 r32 fuel) glfw_terminate (set_trace s (st_trace s ++ [CGlfwInit])).
Proof. intro Hi. unfold main, glfw_init, bind, emit, ret. cbv beta iota. rewrite Hi. reflexivity. Qed.

Lemma clear_screen_glfw_ok env fuel s :
  env_glfw_init env = true ->
  ClearScreen.main env fuel s =
    with_defer (ClearScreen.main_body env fuel) glfw_terminate (set_trace s (st_trace s ++ [CGlfwInit])).
Proof. intro Hi. unfold ClearScreen.main, glfw_init, bind, emit, ret. cbv beta iota. rewrite Hi. reflexivity. Qed.

Lemma main_go_glfw_ok env fuel s :
  env_glfw_init env = true ->
  MainGo.main env fuel s =
    with_defer (MainGo.main_body env fuel) glfw_terminate (set_trace s (st_trace s ++ [CGlfwInit])).
Proof. intro Hi. unfold MainGo.main, glfw_init, bind, emit, ret. cbv beta iota. rewrite Hi. reflexivity. Qed.

(** When [glfw.Init] succeeds, each of the three programs that returns or
    panics has made [glfw.Init] first and the deferred [glfw.Terminate] last. *)
Theorem glfw_terminate_deferred env r64 r32 fuel s :
  env_glfw_init env = true ->
  (finished (main env r64 r32 fuel s) = true ->
   exists e, st_trace (res_state (main env r64 r32 fuel s)) =
             st_trace s ++ CGlfwInit :: e ++ [CGlfwTerminate]) /\
  (finished (ClearScreen.main env fuel s) = true ->
   exists e, st_trace (res_state (ClearScreen.main env fuel s)) =
             st_trace s ++ CGlfwInit :: e ++ [CGlfwTerminate]) /\
  (finished (MainGo.main env fuel s) = true ->
   exists e, st_trace (res_state (MainGo.main env fuel s)) =
             st_trace s ++ CGlfwInit :: e ++ [CGlfwTerminate]).
Proof.
  intro Hi. rewrite (main_glfw_ok _ _ _ _ _ Hi), (clear_screen_glfw_ok _ _ _ Hi),
    (main_go_glfw_ok _ _ _ Hi).
  split; [|split]; intro Hf;
    [ destruct (defer_terminate_last _ _ (main_body_appends env r64 r32 fuel) Hf) as (e & T)
    | destruct (defer_terminate_last _ _ (clear_screen_body_appends env fuel) Hf) as (e & T)
    | destruct (defer_terminate_last _ _ (main_go_body_appends env fuel) Hf) as (e & T) ];
    exists e; rewrite T; cbn; rewrite <- !app_assoc; reflexivity.
Qed.

(** When [glfw.Init] fails, each of the three programs panics with the GLFW
    error right after that call: no window hint, no window, no deferred
    [glfw.Terminate]. *)
Theorem glfw_init_failure env r64 r32 fuel s :
  env_glfw_init env = false ->
  let s1 := set_trace s (st_trace s ++ [CGlfwInit]) in
  let p := PanicError (GlfwError "glfw init failed") in
  main env r64 r32 fuel s = Panicked p s1 /\
  ClearScreen.main env fuel s = Panicked p s1 /\
  MainGo.main env fuel s = Panicked p s1.
Proof.
  intro Hi. unfold main, ClearScreen.main, MainGo.main, glfw_init, bind, emit, ret, go_panic.
  cbv beta iota zeta. rewrite Hi. repeat split.
Qed.

(** [compileShader] of a file that does not exist returns handle 0 and the
    [os.Open] path error; it reads the file and creates no shader. *)
Theorem compileShader_missing_file env f ty s :
  env_fs env f = None ->
  exists s',
    compileShader env f ty s = Done (0, Some (PathError "open" f)) s' /\
    st_trace s' = st_trace s ++ [CReadFile f] /\
    st_next s' = st_next s /\ st_objs s' = st_objs s.
Proof.
  intro Hf. rewrite (compileShader_read_error env f ty s Hf).
  eexists. split; [reflexivity|]. auto.
Qed.

(** When the vertex shader compiles and the fragment shader file is missing,
    [newProgram] returns handle 0 and the path error of the fragment file; the
    vertex shader object it created is left undeleted. *)
Theorem newProgram_missing_fragment env vf ff s cv lv :
  env_fs env vf = Some cv ->
  env_compile env GL_VERTEX_SHADER (c_string (cv ++ nul_str)) = (true, lv) ->
  info_log_length lv + 1 < 2 ^ 31 ->
  env_fs env ff = None ->
  exists s',
    newProgram env vf ff s = Done (0, Some (PathError "open" ff)) s' /\
    st_trace s' = st_trace s ++ compile_calls vf GL_VERTEX_SHADER (st_next s)
                                 (c_string (cv ++ nul_str)) true (info_log_length lv)
                             ++ [CReadFile ff] /\
    st_next s' = st_next s + 1 /\
    (forall k, st_objs s' k =
       if k =? st_next s
       then Some (ShaderObj GL_VERTEX_SHADER (c_string (cv ++ nul_str)) (Some (true, lv)) false)
       else st_objs s k).
Proof.
  intros Hv Hc Hl Hf.
  destruct (compileShader_compiled env vf GL_VERTEX_SHADER s cv true lv Hv Hc Hl)
    as (s1 & E1 & T1 & N1 & O1 & _).
  exists (set_trace s1 (st_trace s1 ++ [CReadFile ff])).
  split.
  - unfold newProgram. rewrite (bind_done _ _ _ _ _ E1). cbv beta iota.
    rewrite (bind_done _ _ _ _ _ (compileShader_read_error env ff GL_FRAGMENT_SHADER s1 Hf)).
    reflexivity.
  - cbn. rewrite T1, <- app_assoc. split; [reflexivity|]. split; [exact N1 | exact O1].
Qed.

Lemma c_string_upto_nul a rest :
  no_nul a = true -> (rest = EmptyString \/ exists b, rest = String NUL b) ->
  c_string ((a ++ rest) ++ nul_str) = a.
Proof.
  intros Ha Hr. induction a as [|ch a IH].
  - destruct Hr as [-> | (b & ->)]; reflexivity.
  - cbn in Ha |- *. apply andb_prop in Ha as [Hc Ha].
    destruct (Ascii.eqb ch NUL); [discriminate|]. rewrite IH by exact Ha. reflexivity.
Qed.

(** The source GL receives is the file contents up to their first NUL: a
    file [a ++ rest] where [a] has no NUL and [rest] is empty or starts with a
    NUL is compiled as [a]. *)
Theorem compileShader_source_upto_nul env f ty s c a rest :
  env_fs env f = Some c ->
  c = (a ++ rest)%string -> no_nul a = true ->
  (rest = EmptyString \/ exists b, rest = String NUL b) ->
  info_log_length (snd (env_compile env ty a)) + 1 < 2 ^ 31 ->
  exists r s',
    compileShader env f ty s = Done r s' /\
    st_trace s' = st_trace s ++ compile_calls f ty (st_next s) a (fst (env_compile env ty a))
                                  (info_log_length (snd (env_compile env ty a))) /\
    st_objs s' (st_next s) = Some (ShaderObj ty a (Some (env_compile env ty a)) false).
Proof.
  intros Hf Hc Ha Hr Hl.
  assert (Hs : c_string (c ++ nul_str) = a) by (subst c; apply c_string_upto_nul; assumption).
  destruct (env_compile env ty a) as [ok log] eqn:Ec. cbn [fst snd] in *.
  assert (Hc' : env_compile env ty (c_string (c ++ nul_str)) = (ok, log)) by (rewrite Hs; exact Ec).
  destruct (compileShader_compiled env f ty s c ok log Hf Hc' Hl) as (s' & E & T & _ & O & _).
  eexists _, s'. split; [exact E|]. rewrite Hs in T. split; [exact T|].
  rewrite O, Z.eqb_refl, Hs. reflexivity.
Qed.


Lemma mul3NonNeg_neg w h :
  w < 0 \/ h < 0 \/ 2 ^ 63 <= 4 * w * h -> mul3NonNeg 4 w h < 0.
Proof.
  intro H. unfold mul3NonNeg.
  change (4 <? 0) with false.
  destruct (Z.ltb_spec w 0), (Z.ltb_spec h 0); cbn [orb]; try lia.
  rewrite !Z.geb_leb.
  destruct (Z.leb_spec (2 ^ 64) (4 * w)); [lia|].
  destruct (Z.leb_spec (2 ^ 64) (4 * w * h)); [lia|].
  destruct (Z.leb_spec (2 ^ 63) (4 * w * h)); lia.
Qed.

Lemma mul3NonNeg_ok w h :
  0 <= w -> 0 <= h -> 4 * w < 2 ^ 64 -> 4 * w * h < 2 ^ 63 -> mul3NonNeg 4 w h = 4 * w * h.
Proof.
  intros Hw Hh Hw4 Hn. unfold mul3NonNeg. change (4 <? 0) with false.
  change (4 <? 0) with false.
  destruct (Z.ltb_spec w 0), (Z.ltb_spec h 0); cbn [orb]; try lia.
  rewrite !Z.geb_leb.
  destruct (Z.leb_spec (2 ^ 64) (4 * w)); [lia|].
  destruct (Z.leb_spec (2 ^ 64) (4 * w * h)); [lia|].
  destruct (Z.leb_spec (2 ^ 63) (4 * w * h)); lia.
Qed.

(** [newTexture] of a decoded image with negative width or height, or with
    [4 * width * height] at least 2^63, panics in [image.NewRGBA] before any
    GL call. *)
Theorem newTexture_huge_image env file texNum s c img fmt d :
  env_fs env file = Some c ->
  env_decode env c = (Some img, fmt, d) ->
  Dx (Bounds img) < 0 \/ Dy (Bounds img) < 0 \/ 2 ^ 63 <= 4 * Dx (Bounds img) * Dy (Bounds img) ->
  exists s',
    newTexture env file texNum s =
      Panicked (RuntimePanic "image: NewRGBA Rectangle has huge or negative dimensions") s' /\
    st_trace s' = st_trace s ++ [COsOpen file; CImageDecode file] /\ st_next s' = st_next s.
Proof.
  intros Hf Hd Hb.
  unfold newTexture, os_open, image_decode, NewRGBA, pixelBufferLength, bind, emit, ret, go_panic.
  cbn -[draw_src mul3NonNeg wrap64 Dx Dy wrap32 Z.mul]. rewrite Hf.
  cbn -[draw_src mul3NonNeg wrap64 Dx Dy wrap32 Z.mul]. rewrite Hd.
  replace (mul3NonNeg 4 (Dx (Bounds img)) (Dy (Bounds img)) <? 0) with true
    by (symmetry; apply Z.ltb_lt, mul3NonNeg_neg, Hb).
  eexists. split; [reflexivity|]. cbn. rewrite <- app_assoc. auto.
Qed.

(** An attribute block for an active attribute location (below
    [GL_MAX_VERTEX_ATTRIBS]) sets that attribute to [size] floats, not
    normalized, stride 32 bytes, the given offset, and enables it; no other
    attribute and no error flag changes. *)
Theorem setup_attrib_active env program name size offset s loc :
  env_attrib_loc env (c_string (name ++ nul_str)) = loc ->
  0 <= loc < 2 ^ 31 -> loc < env_max_attribs env ->
  exists s',
    setup_attrib env program name size offset s = Done tt s' /\
    st_trace s' = st_trace s ++
      [CGetAttribLocation program (c_string (name ++ nul_str));
       CVertexAttribPointer loc size GL_FLOAT false 32 offset;
       CEnableVertexAttribArray loc] /\
    (forall i, st_attribs s' i =
       if i =? loc
       then Some {| at_size := size; at_type := GL_FLOAT; at_norm := false; at_stride := 32;
                    at_offset := offset; at_enabled := true |}
       else st_attribs s i) /\
    st_error s' = st_error s /\ st_objs s' = st_objs s /\ st_next s' = st_next s.
Proof.
  intros Hloc Hr Hm.
  unfold setup_attrib, gl_get_attrib_location, gl_vertex_attrib_pointer,
    gl_enable_vertex_attrib_array, bind, emit, ret, modify. cbv zeta.
  rewrite gl_str_nul. cbn -[c_string]. rewrite Hloc.
  replace (uint32_of_int32 loc) with loc by (unfold uint32_of_int32; rewrite Z.mod_small; lia).
  replace (loc >=? env_max_attribs env) with false by (symmetry; rewrite Z.geb_leb; apply Z.leb_gt; lia).
  eexists. split; [reflexivity|]. cbn. rewrite <- !app_assoc.
  split; [reflexivity|]. split; [|auto].
  intro i. unfold set_attrib. rewrite Z.eqb_refl. cbn. destruct (i =? loc); reflexivity.
Qed.

Lemma length_zseq lo n : length (zseq lo n) = Z.to_nat n.
Proof. unfold zseq. rewrite length_map, length_seq. reflexivity. Qed.

Lemma nth_zseq lo n k d : (k < Z.to_nat n)%nat -> nth k (zseq lo n) d = lo + Z.of_nat k.
Proof.
  intro H. unfold zseq.
  rewrite (nth_indep _ d (lo + Z.of_nat 0)) by (rewrite length_map, length_seq; exact H).
  rewrite (map_nth (fun k => lo + Z.of_nat k) _ 0%nat), seq_nth by exact H. reflexivity.
Qed.

Lemma length_flat_map_const {A} (f : A -> list Z) l k :
  (forall a, length (f a) = k) -> length (flat_map f l) = (length l * k)%nat.
Proof.
  intro Hf. induction l as [|a l IH]; [reflexivity|].
  cbn [flat_map]. rewrite length_app, Hf, IH. cbn. lia.
Qed.

Lemma nth_flat_map_const {A} (f : A -> list Z) l k n j d da :
  (forall a, length (f a) = k) -> (n < length l)%nat -> (j < k)%nat ->
  nth (n * k + j) (flat_map f l) d = nth j (f (nth n l da)) d.
Proof.
  intros Hf. revert n. induction l as [|a l IH]; intros n Hn Hj; [cbn in Hn; lia|].
  cbn [flat_map]. destruct n as [|n].
  - cbn [nth]. rewrite app_nth1 by (rewrite Hf; lia). reflexivity.
  - cbn [nth]. rewrite app_nth2 by (rewrite Hf; lia). rewrite Hf.
    replace (S n * k + j - k)%nat with (n * k + j)%nat by lia.
    apply IH; cbn in Hn; lia.
Qed.

Lemma grid_nth (p : Z -> Z -> list Z) mx my W H a b j :
  (forall x y, length (p x y) = 4%nat) ->
  (a < Z.to_nat H)%nat -> (b < Z.to_nat W)%nat -> (j < 4)%nat ->
  nth (a * (Z.to_nat W * 4) + (b * 4 + j))
      (flat_map (fun y => flat_map (fun x => p x y) (zseq mx W)) (zseq my H)) 0 =
  nth j (p (mx + Z.of_nat b) (my + Z.of_nat a)) 0.
Proof.
  intros Hp Ha Hb Hj.
  rewrite (nth_flat_map_const _ _ (Z.to_nat W * 4) a _ 0 0).
  - rewrite nth_zseq by exact Ha.
    rewrite (nth_flat_map_const _ _ 4 b _ 0 0) by (auto; rewrite length_zseq; exact Hb).
    rewrite nth_zseq by exact Hb. reflexivity.
  - intro y. rewrite (length_flat_map_const _ _ 4) by auto. rewrite length_zseq. reflexivity.
  - rewrite length_zseq. exact Ha.
  - nia.
Qed.


Lemma quad_length (t : Z * Z * Z * Z) :
  length (let '(cr, cg, cb, ca) := t in [cr; cg; cb; ca]) = 4%nat.
Proof. destruct t as [[[? ?] ?] ?]. reflexivity. Qed.

Lemma quad_nth (t : Z * Z * Z * Z) :
  (let l := (let '(cr, cg, cb, ca) := t in [cr; cg; cb; ca]) in
   (nth 0 l 0, nth 1 l 0, nth 2 l 0, nth 3 l 0)) = t.
Proof. destruct t as [[[? ?] ?] ?]. reflexivity. Qed.

(** [draw_src] on a destination whose rows are [4 * Dx] bytes apart: reading
    the result at a point of its bounds gives the source pixel at the point
    shifted by the destination's origin when that lies in the source bounds,
    and the destination's old pixel otherwise. *)
Lemma draw_src_at dst src x y :
  let r := RRect dst in
  Stride dst = Dx r * 4 ->
  px (rmax r) - px (rmin r) = Dx r -> py (rmax r) - py (rmin r) = Dy r ->
  in_rect r x y = true ->
  rgba_at (draw_src dst src) x y =
    (let sx := x - px (rmin r) in
     let sy := y - py (rmin r) in
     if in_rect (Bounds src) sx sy then image_at src sx sy else rgba_at dst x y).
Proof.
  intros r Hs Hx Hy Hin.
  assert (Hin' := Hin). unfold in_rect in Hin'.
  rewrite !Bool.andb_true_iff, !Z.leb_le, !Z.ltb_lt in Hin'.
  unfold rgba_at at 1. cbn [draw_src RRect Stride Pix]. fold r. rewrite Hin, Hs.
  set (a := Z.to_nat (y - py (rmin r))). set (b := Z.to_nat (x - px (rmin r))).
  replace (Z.to_nat ((y - py (rmin r)) * (Dx r * 4) + (x - px (rmin r)) * 4))
    with (a * (Z.to_nat (Dx r) * 4) + (b * 4 + 0))%nat
    by (subst a b; apply Nat2Z.inj; rewrite Z2Nat.id by nia;
        rewrite !Nat2Z.inj_add, !Nat2Z.inj_mul, !Z2Nat.id by lia; ring).
  assert (Ha : (a < Z.to_nat (Dy r))%nat) by (subst a; rewrite <- Hy; apply Z2Nat.inj_lt; lia).
  assert (Hb : (b < Z.to_nat (Dx r))%nat) by (subst b; rewrite <- Hx; apply Z2Nat.inj_lt; lia).
  replace (a * (Z.to_nat (Dx r) * 4) + (b * 4 + 0) + 1)%nat
    with (a * (Z.to_nat (Dx r) * 4) + (b * 4 + 1))%nat by lia.
  replace (a * (Z.to_nat (Dx r) * 4) + (b * 4 + 0) + 2)%nat
    with (a * (Z.to_nat (Dx r) * 4) + (b * 4 + 2))%nat by lia.
  replace (a * (Z.to_nat (Dx r) * 4) + (b * 4 + 0) + 3)%nat
    with (a * (Z.to_nat (Dx r) * 4) + (b * 4 + 3))%nat by lia.
  rewrite !grid_nth by (intros; apply quad_length || lia || assumption).
  replace (px (rmin r) + Z.of_nat b) with x by (subst b; lia).
  replace (py (rmin r) + Z.of_nat a) with y by (subst a; lia).
  apply quad_nth.
Qed.

Lemma wrap64_small z : - 2 ^ 63 <= z < 2 ^ 63 -> wrap64 z = z.
Proof. intro H. unfold wrap64. rewrite Z.mod_small; lia. Qed.

Lemma nth_repeat_zero n i : nth i (repeat 0 n) 0 = 0.
Proof. revert i. induction n as [|n IH]; intros [|i]; cbn; auto. Qed.

(** The pixel buffer [newTexture] fills, read through [At]. *)
Lemma texture_pixels_at img x y :
  let r := Bounds img in
  0 <= px (rmax r) - px (rmin r) -> 0 <= py (rmax r) - py (rmin r) ->
  4 * (px (rmax r) - px (rmin r)) < 2 ^ 63 -> py (rmax r) - py (rmin r) < 2 ^ 63 ->
  in_rect r x y = true ->
  rgba_at (texture_pixels img) x y =
    (let sx := x - px (rmin r) in
     let sy := y - py (rmin r) in
     if in_rect r sx sy then image_at img sx sy else (0, 0, 0, 0)).
Proof.
  intros r Hx Hy Hx4 Hy4 Hin.
  assert (HDx : Dx r = px (rmax r) - px (rmin r)) by (unfold Dx; apply wrap64_small; lia).
  assert (HDy : Dy r = py (rmax r) - py (rmin r)) by (unfold Dy; apply wrap64_small; lia).
  unfold texture_pixels. fold r.
  rewrite draw_src_at; cbn [RRect Stride].
  - cbv zeta. fold r. destruct (in_rect r (x - px (rmin r)) (y - py (rmin r))); [reflexivity|].
    unfold rgba_at. cbn [RRect Pix]. rewrite Hin, !nth_repeat_zero. reflexivity.
  - rewrite wrap64_small by lia. lia.
  - lia.
  - lia.
  - exact Hin.
Qed.

(** The pixels [newTexture] passes to [TexImage2D]: for a decoded image of
    positive width W and height H with [4 * W * H] below 2^63, the call gets
    W, H and a buffer of [4 * W * H] bytes, rows packed W pixels apart. At
    offset [4 * (row * W + column)], the point of the bounds at that row and
    column holds the colour [draw.Draw] reads from the image at that point
    minus the bounds' origin, when that lies in the bounds, and zero
    otherwise: the raw bytes of an [*image.RGBA], the alpha-premultiplied
    8-bit colour of any other image type. *)
Theorem newTexture_upload_pixels env file texNum s c img fmt d :
  env_fs env file = Some c ->
  env_decode env c = (Some img, fmt, d) ->
  let r := Bounds img in
  let W := px (rmax r) - px (rmin r) in
  let H := py (rmax r) - py (rmin r) in
  0 < W -> 0 < H -> 4 * W * H < 2 ^ 63 ->
  exists s' pix,
    newTexture env file texNum s = Done (st_next s, None) s' /\
    st_trace s' = st_trace s ++
      [COsOpen file; CImageDecode file; CGenTextures; CActiveTexture texNum;
       CBindTexture GL_TEXTURE_2D (st_next s);
       CTexParameteri GL_TEXTURE_2D GL_TEXTURE_MIN_FILTER GL_LINEAR;
       CTexParameteri GL_TEXTURE_2D GL_TEXTURE_MAG_FILTER GL_LINEAR;
       CTexImage2D GL_TEXTURE_2D 0 GL_RGBA (wrap32 W) (wrap32 H) 0 GL_RGBA GL_UNSIGNED_BYTE pix] /\
    length pix = Z.to_nat (4 * W * H) /\
    (forall x y, in_rect r x y = true ->
       let i := Z.to_nat (((y - py (rmin r)) * W + (x - px (rmin r))) * 4) in
       (nth i pix 0, nth (i + 1) pix 0, nth (i + 2) pix 0, nth (i + 3) pix 0) =
       (let sx := x - px (rmin r) in
        let sy := y - py (rmin r) in
        if in_rect r sx sy then image_at img sx sy else (0, 0, 0, 0))).
Proof.
  intros Hf Hd r W H HW HH HWH.
  assert (HW' : 0 < px (rmax (Bounds img)) - px (rmin (Bounds img))) by exact HW.
  assert (HH' : 0 < py (rmax (Bounds img)) - py (rmin (Bounds img))) by exact HH.
  assert (HWH' : 4 * (px (rmax (Bounds img)) - px (rmin (Bounds img)))
                   * (py (rmax (Bounds img)) - py (rmin (Bounds img))) < 2 ^ 63) by exact HWH.
  assert (HDx : Dx r = W) by (unfold Dx, W; apply wrap64_small; nia).
  assert (HDy : Dy r = H) by (unfold Dy, H; apply wrap64_small; nia).
  destruct (newTexture_decoded env file texNum s c img fmt d Hf Hd)
    as (s' & E & T & _).
  { fold r. rewrite HDx, HDy, mul3NonNeg_ok by lia. lia. }
  exists s', (Pix (texture_pixels img)). split; [exact E|]. split; [|split].
  - rewrite T. unfold texture_calls. fold r. rewrite HDx, HDy. reflexivity.
  - unfold texture_pixels. cbn [draw_src Pix RRect]. fold r.
    rewrite (length_flat_map_const _ _ (Z.to_nat (Dx r) * 4)).
    + rewrite length_zseq, HDx, HDy. rewrite !Z2Nat.inj_mul by lia. cbn. lia.
    + intro y. rewrite (length_flat_map_const _ _ 4) by (intros; apply quad_length).
      rewrite length_zseq. reflexivity.
  - intros x y Hin i.
    assert (Hin' := Hin). unfold in_rect in Hin'.
    rewrite !Bool.andb_true_iff, !Z.leb_le, !Z.ltb_lt in Hin'.
    pose proof (texture_pixels_at img x y ltac:(lia) ltac:(lia) ltac:(nia) ltac:(nia) Hin) as P.
    unfold rgba_at in P.
    replace (RRect (texture_pixels img)) with r in P by reflexivity.
    replace (Stride (texture_pixels img)) with (W * 4) in P
      by (change (Stride (texture_pixels img)) with (wrap64 (4 * Dx r)); rewrite HDx, wrap64_small; [lia | clearbody W H; nia]).
    rewrite Hin in P.
    replace (Z.to_nat ((y - py (rmin r)) * (W * 4) + (x - px (rmin r)) * 4)) with i in P
      by (subst i; f_equal; ring).
    exact P.
Qed.


Lemma newTexture_missing env file texNum s :
  env_fs env file = None ->
  newTexture env file texNum s =
    Done (0, Some (PathError "open" file)) (set_trace s (st_trace s ++ [COsOpen file])).
Proof.
  intro Hf. unfold newTexture, os_open, bind, emit, ret. cbn -[image_decode NewRGBA draw_src].
  rewrite Hf. reflexivity.
Qed.

(** When the shaders compile and link but [kitten.png] does not exist, [main]
    panics with the [os.Open] error, without drawing or writing a uniform. *)
Theorem main_missing_texture env r64 r32 fuel s cv cf lv lf llog :
  env_glfw_init env = true -> env_create_window env = true -> env_gl_init env = true ->
  env_fs env "vertex.glsl" = Some cv ->
  env_compile env GL_VERTEX_SHADER (c_string (cv ++ nul_str)) = (true, lv) ->
  env_fs env "fragment.glsl" = Some cf ->
  env_compile env GL_FRAGMENT_SHADER (c_string (cf ++ nul_str)) = (true, lf) ->
  env_link env [(GL_VERTEX_SHADER, c_string (cv ++ nul_str));
                (GL_FRAGMENT_SHADER, c_string (cf ++ nul_str))] = (true, llog) ->
  info_log_length lv + 1 < 2 ^ 31 -> info_log_length lf + 1 < 2 ^ 31 ->
  info_log_length llog + 1 < 2 ^ 31 ->
  env_fs env "kitten.png" = None ->
  exists s',
    main env r64 r32 fuel s = Panicked (PanicError (PathError "open" "kitten.png")) s' /\
    draws (st_trace s') = draws (st_trace s) /\
    uniform_writes (st_trace s') = uniform_writes (st_trace s).
Proof.
  intros Hg Hw Hgl Hv Hcv Hf Hcf Hl Hlv Hlf Hll Hk.
  unfold main, main_body, with_defer, bind, glfw_init, glfw_window_hint, glfw_create_window,
    make_context_current, gl_init, emit, ret.
  rewrite Hg. cbn -[newProgram setup_attrib newTexture render_loop vertices]. rewrite Hw. cbn -[newProgram setup_attrib newTexture render_loop vertices]. rewrite Hgl. cbn -[newProgram setup_attrib newTexture render_loop vertices].
  match goal with |- context [newProgram ?e ?v ?f ?st] =>
    destruct (newProgram_linked e v f st cv cf lv lf true llog Hv Hcv Hf Hcf Hl Hlv Hlf Hll)
      as (s1 & E1 & T1 & _); rewrite E1 end.
  cbn -[setup_attrib newTexture render_loop vertices].
  cbn in T1.
  match goal with |- context [setup_attrib ?e ?p ?n ?sz ?o ?st] =>
    destruct (setup_attrib_done e p n sz o st) as (s2 & E2);
    destruct (setup_attrib_quiet e p n sz o st) as (x2 & T2 & Q2);
    rewrite E2 in T2; rewrite E2 end.
  cbn -[setup_attrib newTexture render_loop vertices].
  match goal with |- context [setup_attrib ?e ?p ?n ?sz ?o ?st] =>
    destruct (setup_attrib_done e p n sz o st) as (s3 & E3);
    destruct (setup_attrib_quiet e p n sz o st) as (x3 & T3 & Q3);
    rewrite E3 in T3; rewrite E3 end.
  cbn -[setup_attrib newTexture render_loop vertices].
  match goal with |- context [setup_attrib ?e ?p ?n ?sz ?o ?st] =>
    destruct (setup_attrib_done e p n sz o st) as (s4 & E4);
    destruct (setup_attrib_quiet e p n sz o st) as (x4 & T4 & Q4);
    rewrite E4 in T4; rewrite E4 end.
  cbn -[setup_attrib newTexture render_loop vertices].
  rewrite newTexture_missing by exact Hk.
  cbn -[render_loop vertices].
  eexists. split; [reflexivity|].
  cbn [res_state st_trace set_trace] in T2, T3, T4. cbn [st_trace set_trace].
  rewrite T4, T3, T2, T1.
  destruct (quiet_obs _ Q2) as (U2 & D2 & _). destruct (quiet_obs _ Q3) as (U3 & D3 & _).
  destruct (quiet_obs _ Q4) as (U4 & D4 & _).
  obs_simpl. rewrite U2, D2, U3, D3, U4, D4, !app_nil_r. split; reflexivity.
Qed.


(** * Concrete runs *)

Lemma render_loop_draws_witness :
  exists s',
    render_loop (demo_env true true 0 strided_image 3) (fun q => q) (fun q => q) 5 0 0%Q init_state
      = Done tt s' /\
    draws (st_trace s') = repeat (GL_TRIANGLES, 0, 36) 3.
Proof.
  destruct (render_loop_draws (demo_env true true 0 strided_image 3) (fun q => q) (fun q => q)
              3 5 0 0%Q init_state ltac:(lia)
              ltac:(intros k Hk; apply (proj2 (Nat.leb_gt 3 (0 + k))); lia) ltac:(reflexivity))
    as (s' & E & _ & D).
  exists s'. split; [exact E | exact D].
Defined.

Lemma compile_failure_error_witness :
  exists s',
    compileShader (demo_env false true 0 strided_image 1) "vertex.glsl" GL_VERTEX_SHADER init_state =
      Done (0, Some (ErrorString ("failed to compile vertex.glsl: " ++ info_log_text "syntax error"))) s'.
Proof.
  destruct (compile_failure_error (demo_env false true 0 strided_image 1) "vertex.glsl"
              GL_VERTEX_SHADER init_state "source of vertex.glsl" "syntax error"
              ltac:(reflexivity) ltac:(reflexivity) ltac:(vm_compute; reflexivity))
    as (s' & E & _).
  exists s'. exact E.
Defined.

(** One source file compiled as a vertex and as a fragment shader gives the
    same error value. *)
Lemma compile_error_same_for_both_kinds :
  exists e s1 s2,
    compileShader (demo_env false true 0 strided_image 1) "shader.glsl" GL_VERTEX_SHADER init_state
      = Done (0, Some e) s1 /\
    compileShader (demo_env false true 0 strided_image 1) "shader.glsl" GL_FRAGMENT_SHADER init_state
      = Done (0, Some e) s2.
Proof.
  exists (ErrorString ("failed to compile shader.glsl: " ++ info_log_text "syntax error")),
    (res_state (compileShader (demo_env false true 0 strided_image 1) "shader.glsl"
                  GL_VERTEX_SHADER init_state)),
    (res_state (compileShader (demo_env false true 0 strided_image 1) "shader.glsl"
                  GL_FRAGMENT_SHADER init_state)).
  split; vm_compute; reflexivity.
Qed.

Lemma link_failure_aborts_witness :
  exists s', main (demo_env true false 0 strided_image 1) (fun q => q) (fun q => q) 5 init_state
             = Panicked (PanicError (ErrorString ("failed to link program: " ++ info_log_text "link error"))) s'.
Proof.
  destruct (link_failure_aborts (demo_env true false 0 strided_image 1) init_state
              "source of vertex.glsl" "source of fragment.glsl" EmptyString EmptyString "link error"
              ltac:(reflexivity) ltac:(reflexivity) ltac:(reflexivity) ltac:(reflexivity)
              ltac:(reflexivity) ltac:(vm_compute; reflexivity) ltac:(vm_compute; reflexivity)
              ltac:(vm_compute; reflexivity)) as (_ & H).
  apply H; reflexivity.
Defined.

Lemma newProgram_object_lifetimes_witness :
  exists r s',
    newProgram (demo_env true false 0 strided_image 1) "vertex.glsl" "fragment.glsl" init_state
      = Done r s' /\ snd r <> None.
Proof.
  destruct (newProgram_object_lifetimes (demo_env true false 0 strided_image 1)
              "vertex.glsl" "fragment.glsl" init_state
              "source of vertex.glsl" "source of fragment.glsl" true true false
              EmptyString EmptyString "link error"
              ltac:(reflexivity) ltac:(reflexivity) ltac:(reflexivity) ltac:(reflexivity)
              ltac:(reflexivity) ltac:(vm_compute; reflexivity) ltac:(vm_compute; reflexivity)
              ltac:(vm_compute; reflexivity)) as (r & s' & E & Hok & _).
  exists r, s'. split; [exact E|]. intro H. apply Hok in H. discriminate H.
Defined.

(** After a failed link, both shaders are still undeleted and the program
    object still exists. *)
Lemma link_failure_keeps_objects :
  exists e s',
    newProgram (demo_env true false 0 strided_image 1) "vertex.glsl" "fragment.glsl" init_state
      = Done (0, Some e) s' /\
    st_objs s' 1 = Some (ShaderObj GL_VERTEX_SHADER (c_string ("source of vertex.glsl" ++ nul_str))
                                   (Some (true, EmptyString)) false) /\
    st_objs s' 2 = Some (ShaderObj GL_FRAGMENT_SHADER (c_string ("source of fragment.glsl" ++ nul_str))
                                   (Some (true, EmptyString)) false) /\
    st_objs s' 3 = Some (ProgramObj [1; 2] (Some (false, "link error"%string))).
Proof.
  exists (ErrorString ("failed to link program: " ++ info_log_text "link error")),
    (res_state (newProgram (demo_env true false 0 strided_image 1) "vertex.glsl" "fragment.glsl"
                  init_state)).
  split; [|split; [|split]]; vm_compute; reflexivity.
Qed.

Lemma inactive_attribute_noop_witness :
  exists s',
    setup_attrib (demo_env true true (-1) strided_image 1) 3 "position" 3 0 init_state = Done tt s' /\
    st_attribs s' = st_attribs init_state.
Proof.
  destruct (inactive_attribute_noop (demo_env true true (-1) strided_image 1) 3 "position" 3 0
              init_state ltac:(reflexivity) ltac:(apply Z.leb_le; reflexivity))
    as (s' & E & _ & A & _).
  exists s'. split; [exact E | exact A].
Defined.

Lemma rotation_angle_monotone_witness :
  (rotation_angle (fun q => q) (fun q => q) 0 1 <= rotation_angle (fun q => q) (fun q => q) 0 2)%Q.
Proof.
  apply (rotation_angle_monotone (fun _ => True) (fun _ => True));
    [exact nearest_exact | exact nearest_exact | unfold Qle; simpl; lia].
Defined.



Lemma clear_screen_frames_witness :
  exists s',
    ClearScreen.render_loop (demo_env true true 0 strided_image 2) 5 init_state = Done tt s' /\
    st_trace s' = st_trace init_state ++ concat (repeat clear_frame_calls 2) ++ [CShouldClose].
Proof.
  destruct (clear_screen_frames (demo_env true true 0 strided_image 2) 2 5 init_state ltac:(lia)
              ltac:(intros k Hk; apply (proj2 (Nat.leb_gt 2 (0 + k))); lia) ltac:(reflexivity))
    as (s' & E & T & _).
  exists s'. split; [exact E | exact T].
Defined.

Lemma glfw_terminate_deferred_witness :
  exists e,
    st_trace (res_state (main (demo_env true true 0 strided_image 2) (fun q => q) (fun q => q)
                           5 init_state)) =
    st_trace init_state ++ CGlfwInit :: e ++ [CGlfwTerminate].
Proof.
  apply (proj1 (glfw_terminate_deferred (demo_env true true 0 strided_image 2) (fun q => q)
                  (fun q => q) 5 init_state ltac:(reflexivity))).
  vm_compute. reflexivity.
Defined.

Lemma glfw_init_failure_witness :
  MainGo.main (no_glfw_env (demo_env true true 0 strided_image 1)) 3 init_state =
    Panicked (PanicError (GlfwError "glfw init failed")) (set_trace init_state [CGlfwInit]).
Proof.
  exact (proj2 (proj2 (glfw_init_failure (no_glfw_env (demo_env true true 0 strided_image 1))
                         (fun q => q) (fun q => q) 3 init_state ltac:(reflexivity)))).
Defined.

Lemma compileShader_missing_file_witness :
  exists s',
    compileShader (with_fs (demo_env true true 0 strided_image 1) (fun _ => None))
      "vertex.glsl" GL_VERTEX_SHADER init_state = Done (0, Some (PathError "open" "vertex.glsl")) s'.
Proof.
  destruct (compileShader_missing_file (with_fs (demo_env true true 0 strided_image 1) (fun _ => None))
              "vertex.glsl" GL_VERTEX_SHADER init_state ltac:(reflexivity)) as (s' & E & _).
  exists s'. exact E.
Defined.

Lemma newProgram_missing_fragment_witness :
  exists s',
    newProgram (with_fs (demo_env true true 0 strided_image 1)
                  (fun f => if String.eqb f "fragment.glsl" then None
                            else Some ("source of " ++ f)%string))
      "vertex.glsl" "fragment.glsl" init_state = Done (0, Some (PathError "open" "fragment.glsl")) s'.
Proof.
  destruct (newProgram_missing_fragment
              (with_fs (demo_env true true 0 strided_image 1)
                 (fun f => if String.eqb f "fragment.glsl" then None
                           else Some ("source of " ++ f)%string))
              "vertex.glsl" "fragment.glsl" init_state "source of vertex.glsl" EmptyString
              ltac:(reflexivity) ltac:(reflexivity) ltac:(vm_compute; reflexivity)
              ltac:(reflexivity)) as (s' & E & _).
  exists s'. exact E.
Defined.

Lemma compileShader_source_upto_nul_witness :
  exists r s',
    compileShader (with_fs (demo_env true true 0 strided_image 1)
                     (fun _ => Some ("src" ++ String NUL "junk")%string))
      "a.glsl" GL_VERTEX_SHADER init_state = Done r s' /\
    st_objs s' 1 = Some (ShaderObj GL_VERTEX_SHADER "src" (Some (true, EmptyString)) false).
Proof.
  destruct (compileShader_source_upto_nul
              (with_fs (demo_env true true 0 strided_image 1)
                 (fun _ => Some ("src" ++ String NUL "junk")%string))
              "a.glsl" GL_VERTEX_SHADER init_state ("src" ++ String NUL "junk") "src"
              (String NUL "junk") ltac:(reflexivity) ltac:(reflexivity) ltac:(reflexivity)
              ltac:(right; exists "junk"%string; reflexivity) ltac:(vm_compute; reflexivity))
    as (r & s' & E & _ & O).
  exists r, s'. split; [exact E | exact O].
Defined.

Lemma newTexture_huge_image_witness :
  exists s',
    newTexture (demo_env true true 0 inverted_image 1) "kitten.png" GL_TEXTURE0 init_state =
      Panicked (RuntimePanic "image: NewRGBA Rectangle has huge or negative dimensions") s'.
Proof.
  destruct (newTexture_huge_image (demo_env true true 0 inverted_image 1) "kitten.png" GL_TEXTURE0
              init_state "source of kitten.png" inverted_image "png" None
              ltac:(reflexivity) ltac:(reflexivity) ltac:(left; vm_compute; reflexivity))
    as (s' & E & _).
  exists s'. exact E.
Defined.

Lemma setup_attrib_active_witness :
  exists s',
    setup_attrib (demo_env true true 2 strided_image 1) 3 "position" 3 0 init_state = Done tt s' /\
    st_attribs s' 2 = Some {| at_size := 3; at_type := GL_FLOAT; at_norm := false; at_stride := 32;
                              at_offset := 0; at_enabled := true |}.
Proof.
  destruct (setup_attrib_active (demo_env true true 2 strided_image 1) 3 "position" 3 0 init_state 2
              ltac:(reflexivity) ltac:(lia) ltac:(cbn; lia)) as (s' & E & _ & A & _).
  exists s'. split; [exact E|]. rewrite A. reflexivity.
Defined.

Lemma newTexture_upload_pixels_witness :
  exists s' pix,
    newTexture (demo_env true true 0 strided_image 1) "kitten.png" GL_TEXTURE0 init_state
      = Done (1, None) s' /\
    (nth 12 pix 0, nth 13 pix 0, nth 14 pix 0, nth 15 pix 0) = image_at strided_image 1 1.
Proof.
  destruct (newTexture_upload_pixels (demo_env true true 0 strided_image 1) "kitten.png"
              GL_TEXTURE0 init_state "source of kitten.png" strided_image "png" None
              ltac:(reflexivity) ltac:(reflexivity) ltac:(reflexivity) ltac:(reflexivity)
              ltac:(reflexivity)) as (s' & pix & E & _ & _ & P).
  exists s', pix. split; [exact E|].
  refine (eq_trans (P 1 1 ltac:(reflexivity)) _).
  vm_compute. reflexivity.
Defined.

Lemma main_missing_texture_witness :
  exists s',
    main (with_fs (demo_env true true 0 strided_image 1)
            (fun f => if String.eqb f "kitten.png" then None else Some ("source of " ++ f)%string))
      (fun q => q) (fun q => q) 5 init_state =
      Panicked (PanicError (PathError "open" "kitten.png")) s'.
Proof.
  destruct (main_missing_texture
              (with_fs (demo_env true true 0 strided_image 1)
                 (fun f => if String.eqb f "kitten.png" then None else Some ("source of " ++ f)%string))
              (fun q => q) (fun q => q) 5 init_state "source of vertex.glsl" "source of fragment.glsl"
              EmptyString EmptyString EmptyString
              ltac:(reflexivity) ltac:(reflexivity) ltac:(reflexivity) ltac:(reflexivity)
              ltac:(reflexivity) ltac:(reflexivity) ltac:(reflexivity) ltac:(reflexivity)
              ltac:(vm_compute; reflexivity) ltac:(vm_compute; reflexivity)
              ltac:(vm_compute; reflexivity) ltac:(reflexivity)) as (s' & E & _).
  exists s'. exact E.
Defined.
